(** * SES event logging to CloudWatch: a shallow embedding of [handler.js]

    The development follows the source file top to bottom:

    - [JS]: the JavaScript values that [JSON.parse] produces and the few
      language operations the handler applies to them (truthiness, [||],
      property read, [?.], property assignment);
    - [Normalizer]: [processSESEvent];
    - [Runtime]: the interface of what the handler only consumes (the
      CloudWatch Logs client, the clock, [JSON], [console]) and the
      state-and-exception monad in which the asynchronous functions run;
    - [LogClient]: [ensureLogGroupExists], [getSequenceToken],
      [writeToCloudWatch];
    - [Dispatcher]: the body of [sesEventsHandler].

    [Sentry.AWSLambda.wrapHandler] reports what the handler throws and
    passes its result and its exceptions through; the handler is modelled
    without the wrapper. *)

From Stdlib Require Import String Ascii List Bool Arith ZArith Lia.
From Stdlib Require Import Floats.SpecFloat DecimalString.
Import ListNotations.
Local Open Scope list_scope.
Local Open Scope string_scope.

(* ===================================================================== *)
(** * JavaScript values *)
(* ===================================================================== *)

Module JS.

(** A JavaScript number is an IEEE-754 double; [spec_float] is the Standard
    Library's inductive description of one.  A string is a sequence of code
    units, one [ascii] each.  An object keeps its own properties in insertion
    order, as [JSON.stringify] and [Object.keys] see them. *)
#[local] Unset Elimination Schemes.
Inductive Value : Type :=
| VUndefined
| VNull
| VBool (b : bool)
| VNum (n : spec_float)
| VStr (s : string)
| VArr (items : list Value)
| VObj (props : list (string * Value)).
#[local] Set Elimination Schemes.

(** ToBoolean.  The falsy values are [undefined], [null], [false], [+0],
    [-0], [NaN] and the empty string. *)
Definition truthy (v : Value) : bool :=
  match v with
  | VUndefined | VNull => false
  | VBool b => b
  | VNum (S754_zero _) | VNum S754_nan => false
  | VNum _ => true
  | VStr EmptyString => false
  | VStr _ => true
  | VArr _ | VObj _ => true
  end.

Definition nullish (v : Value) : bool :=
  match v with
  | VUndefined | VNull => true
  | _ => false
  end.

(** [a || b] on values (the right operand has no effect in this program). *)
Definition or_else (a b : Value) : Value := if truthy a then a else b.

Notation "a '|||' b" := (or_else a b) (at level 50, left associativity).

(** The literals of the source. *)
Definition unknown : Value := VStr "unknown".
Definition zero : Value := VNum (S754_zero false).
Definition empty_array : Value := VArr [].
Definition empty_object : Value := VObj [].

(** ** Own properties *)

Fixpoint lookup (k : string) (props : list (string * Value)) : option Value :=
  match props with
  | [] => None
  | (k', v) :: rest => if k' =? k then Some v else lookup k rest
  end.

(** [o[k] = v] on the property list of an object: an existing property keeps
    its place, a new one goes last. *)
Fixpoint assign (k : string) (v : Value) (props : list (string * Value))
  : list (string * Value) :=
  match props with
  | [] => [(k, v)]
  | (k', v') :: rest =>
      if k' =? k then (k, v) :: rest else (k', v') :: assign k v rest
  end.

(** The object without its property [k]. *)
Fixpoint remove (k : string) (props : list (string * Value))
  : list (string * Value) :=
  match props with
  | [] => []
  | (k', v') :: rest =>
      if k' =? k then remove k rest else (k', v') :: remove k rest
  end.

(** An array index is a canonical decimal numeral: ["0"], or digits that do
    not start with ["0"]. *)
Definition digit (c : ascii) : option nat :=
  let n := nat_of_ascii c in
  if ((48 <=? n) && (n <=? 57))%nat then Some (n - 48) else None.

Fixpoint digits (s : string) (acc : nat) : option nat :=
  match s with
  | EmptyString => Some acc
  | String c rest =>
      match digit c with
      | Some d => digits rest (10 * acc + d)
      | None => None
      end
  end.

Definition array_index (k : string) : option nat :=
  match k with
  | EmptyString => None
  | String c rest =>
      if (c =? "0")%char
      then match rest with EmptyString => Some 0 | _ => None end
      else digits k 0
  end.

(** [v[k]] for a [v] that is neither [null] nor [undefined].  The properties
    every array and string inherits ([length], the prototype's methods) are
    left out: [handler.js] reads none of them from a payload. *)
Definition get (v : Value) (k : string) : Value :=
  match v with
  | VObj props =>
      match lookup k props with Some x => x | None => VUndefined end
  | VArr items =>
      match array_index k with
      | Some i => nth i items VUndefined
      | None => VUndefined
      end
  | VStr s =>
      match array_index k with
      | Some i =>
          match String.get i s with
          | Some c => VStr (String c EmptyString)
          | None => VUndefined
          end
      | None => VUndefined
      end
  | _ => VUndefined
  end.

(** [v?.k] and [v?.[k]]. *)
Definition opt_get (v : Value) (k : string) : Value :=
  if nullish v then VUndefined else get v k.

(** What a [throw] carries: the errors of this program are read through
    [name] and [message] only. *)
Record Error : Type := mkError { name : string; message : string }.

(** [v.k]: reading a property of [null] or [undefined] throws. *)
Definition read (v : Value) (k : string) : Error + Value :=
  match v with
  | VUndefined =>
      inl (mkError "TypeError"
             ("Cannot read properties of undefined (reading '" ++ k ++ "')"))
  | VNull =>
      inl (mkError "TypeError"
             ("Cannot read properties of null (reading '" ++ k ++ "')"))
  | _ => inr (get v k)
  end.

(** [v.k = x] as a statement of a non-strict script: it updates an object and
    does nothing to a primitive.  (An array would take the property too; the
    handler only assigns to a value that already has a truthy [eventType] or
    [notificationType], which no array from [JSON.parse] has.) *)
Definition write (v : Value) (k : string) (x : Value) : Value :=
  match v with
  | VObj props => VObj (assign k x props)
  | _ => v
  end.

Definition is_object (v : Value) : bool :=
  match v with VObj _ => true | _ => false end.

End JS.

Import JS.

(* ===================================================================== *)
(** * The event normalizer: [processSESEvent] *)
(* ===================================================================== *)

Module Normalizer.

(** The extra properties of one [case] group of the [switch]. *)
Definition bounce_details (snsMessage : Value) (pe : list (string * Value)) :=
  let bounce := get snsMessage "bounce" ||| empty_object in
  let pe := assign "bounceType" (get bounce "bounceType" ||| unknown) pe in
  let pe := assign "bounceSubType" (get bounce "bounceSubType" ||| unknown) pe in
  assign "bouncedRecipients" (get bounce "bouncedRecipients" ||| empty_array) pe.

Definition complaint_details (snsMessage : Value) (pe : list (string * Value)) :=
  let complaint := get snsMessage "complaint" ||| empty_object in
  let pe := assign "complaintFeedbackType"
              (get complaint "complaintFeedbackType" ||| unknown) pe in
  assign "complainedRecipients"
    (get complaint "complainedRecipients" ||| empty_array) pe.

Definition delivery_details (snsMessage : Value) (pe : list (string * Value)) :=
  let delivery := get snsMessage "delivery" ||| empty_object in
  let pe := assign "processingTimeMillis"
              (get delivery "processingTimeMillis" ||| zero) pe in
  assign "smtpResponse" (get delivery "smtpResponse" ||| unknown) pe.

Definition reject_details (snsMessage : Value) (pe : list (string * Value)) :=
  let reject := get snsMessage "reject" ||| empty_object in
  assign "reason" (get reject "reason" ||| unknown) pe.

Definition renderingFailure_details
  (snsMessage : Value) (pe : list (string * Value)) :=
  let renderingFailure := get snsMessage "failure" ||| empty_object in
  let pe := assign "errorMessage"
              (get renderingFailure "errorMessage" ||| unknown) pe in
  assign "templateName" (get renderingFailure "templateName" ||| unknown) pe.

(** The [switch (snsMessage.eventType)]: [case] labels compare with [===],
    so only a string can select a branch. *)
Definition event_details (snsMessage : Value) (pe : list (string * Value))
  : list (string * Value) :=
  match get snsMessage "eventType" with
  | VStr kind =>
      if (kind =? "Bounce") || (kind =? "bounce")
      then bounce_details snsMessage pe
      else if (kind =? "Complaint") || (kind =? "complaint")
      then complaint_details snsMessage pe
      else if (kind =? "Delivery") || (kind =? "delivery")
      then delivery_details snsMessage pe
      else if (kind =? "Send") || (kind =? "send")
      then pe
      else if (kind =? "Reject") || (kind =? "reject")
      then reject_details snsMessage pe
      else if (kind =? "Rendering Failure") || (kind =? "renderingFailure")
      then renderingFailure_details snsMessage pe
      else pe
  | _ => pe
  end.

(** The object literal that opens the function, for an [snsMessage] that has
    properties to read. *)
Definition base_record (timestamp : string) (snsMessage : Value)
  : list (string * Value) :=
  let mail := get snsMessage "mail" in
  [ ("timestamp", VStr timestamp);
    ("messageId", opt_get mail "messageId" ||| unknown);
    ("eventType", get snsMessage "eventType" ||| unknown);
    ("recipient", opt_get (opt_get mail "destination") "0" ||| unknown);
    ("source", opt_get mail "source" ||| unknown);
    ("subject", opt_get (opt_get mail "commonHeaders") "subject" ||| unknown);
    ("rawEvent", snsMessage) ].

(** [processSESEvent(snsMessage)], with [timestamp] the value of
    [new Date().toISOString()] at the call.  The first property read,
    [snsMessage.mail], throws when [snsMessage] is [null] or [undefined];
    nothing after it can throw. *)
Definition processSESEvent (timestamp : string) (snsMessage : Value)
  : Error + Value :=
  match read snsMessage "mail" with
  | inl e => inl e
  | inr _ =>
      inr (VObj (event_details snsMessage (base_record timestamp snsMessage)))
  end.

End Normalizer.

Import Normalizer.

(* ===================================================================== *)
(** * What the handler consumes: log store, clock, JSON, console *)
(* ===================================================================== *)

Module Runtime.

(** ** The CloudWatch Logs client *)

(** One entry of [logEvents]: [{ timestamp, message }]. *)
Record InputLogEvent : Type :=
  mkLogEvent { event_timestamp : Z; event_message : string }.

(** The four commands of [@aws-sdk/client-cloudwatch-logs] that the handler
    builds, with the parameters it sets.  [sequenceToken] is [None] when the
    property is left off the parameter object. *)
Inductive Command : Type :=
| CreateLogGroupCommand (logGroupName : string)
| CreateLogStreamCommand (logGroupName logStreamName : string)
| DescribeLogStreamsCommand (logGroupName logStreamNamePrefix : string)
| PutLogEventsCommand (logGroupName logStreamName : string)
    (logEvents : list InputLogEvent) (sequenceToken : option string).

Record LogStream : Type :=
  mkLogStream { logStreamName : string; uploadSequenceToken : option string }.

(** A response, as far as the handler looks into it: only
    [response.logStreams] is ever read. *)
Record Response : Type :=
  mkResponse { logStreams : option (list LogStream) }.

Definition no_output : Response := mkResponse None.

(** ** The transport event *)

Record SnsEnvelope : Type := mkSns { Message : string }.
Record SNSRecord : Type := mkRecord { EventSource : string; Sns : SnsEnvelope }.
Record LambdaEvent : Type := mkEvent { Records : list SNSRecord }.

Record HandlerResult : Type := mkResult { statusCode : Z; body : string }.

(** ** The environment

    Everything the module obtains from outside its own text: the value of
    [process.env.LOG_GROUP_NAME], the log store behind
    [cloudwatchLogs.send] together with the clock (one state [Outside],
    stepped by every call), and the built-ins [JSON.parse],
    [JSON.stringify], [Date.prototype.toISOString] and the conversion of a
    number to a string. *)
Class Environment : Type := {
  Outside : Type;
  LOG_GROUP_NAME : string;
  store_send : Command -> Outside -> (Error + Response) * Outside;
  Date_now : Outside -> Z * Outside;
  toISOString : Z -> string;
  JSON_parse : string -> Error + Value;
  JSON_stringify : Value -> string;
  JSON_stringify_event : LambdaEvent -> string;
  JSON_stringify_record : SNSRecord -> string;
  Number_toString : spec_float -> string
}.

Definition LOG_STREAM_NAME : string := "ses-email-events-stream".

(** ** String conversion

    [ToString], as a template literal applies it to a value that
    [JSON.parse] produced.  An object is converted by its [toString] method:
    the inherited one gives ["[object Object]"]; an own property
    [toString] hides it, is never callable (it is a JSON value), and the
    inherited [valueOf] returns the object itself, so the conversion throws.
    An array is converted by [join]: its elements, [null] and [undefined]
    as the empty string, with commas in between. *)
Definition cannot_convert : Error :=
  mkError "TypeError" "Cannot convert object to primitive value".

Section Conversion.
Context {env : Environment}.

Fixpoint ToString (v : Value) : Error + string :=
  match v with
  | VUndefined => inr "undefined"
  | VNull => inr "null"
  | VBool true => inr "true"
  | VBool false => inr "false"
  | VNum n => inr (Number_toString n)
  | VStr s => inr s
  | VArr items =>
      (fix join (l : list Value) : Error + string :=
         match l with
         | [] => inr EmptyString
         | x :: rest =>
             let element :=
               match x with
               | VUndefined | VNull => inr EmptyString
               | _ => ToString x
               end in
             match element, rest with
             | inl e, _ => inl e
             | inr s, [] => inr s
             | inr s, _ :: _ =>
                 match join rest with
                 | inl e => inl e
                 | inr r => inr (s ++ "," ++ r)
                 end
             end
         end) items
  | VObj props =>
      match lookup "toString" props with
      | Some _ => inl cannot_convert
      | None => inr "[object Object]"
      end
  end.

End Conversion.

Inductive Level : Type := LOG | ERROR.

Definition Line : Type := (Level * list string)%type.

Section Monad.
Context {env : Environment}.

(** The state a run threads: the outside world, the commands sent so far
    (oldest first) and the console output (oldest first). *)
Record World : Type :=
  mkWorld { outside : Outside; sent : list Command; console : list Line }.

(** A computation ends by returning or by throwing; the world it leaves
    behind is kept in both cases. *)
Definition M (A : Type) : Type := World -> (Error + A) * World.

Definition ret {A} (a : A) : M A := fun w => (inr a, w).

Definition throw {A} (e : Error) : M A := fun w => (inl e, w).

Definition bind {A B} (c : M A) (k : A -> M B) : M B :=
  fun w =>
    match c w with
    | (inr a, w') => k a w'
    | (inl e, w') => (inl e, w')
    end.

(** [try { c } catch (error) { handler }] *)
Definition try_catch {A} (c : M A) (handler : Error -> M A) : M A :=
  fun w =>
    match c w with
    | (inr a, w') => (inr a, w')
    | (inl e, w') => handler e w'
    end.

Definition lift {A} (r : Error + A) : M A := fun w => (r, w).

(** [await cloudwatchLogs.send(command)] *)
Definition send (command : Command) : M Response :=
  fun w =>
    let (r, o) := store_send command (outside w) in
    (r, mkWorld o (sent w ++ [command])%list (console w)).

(** [Date.now()] *)
Definition now : M Z :=
  fun w =>
    let (t, o) := Date_now (outside w) in
    (inr t, mkWorld o (sent w) (console w)).

Definition console_log (args : list string) : M unit :=
  fun w => (inr tt, mkWorld (outside w) (sent w) (console w ++ [(LOG, args)])%list).

Definition console_error (args : list string) : M unit :=
  fun w => (inr tt, mkWorld (outside w) (sent w) (console w ++ [(ERROR, args)])%list).

End Monad.

Declare Scope js_scope.
Delimit Scope js_scope with js.
Notation "x <- c ;; k" := (bind c (fun x => k))
  (at level 61, c at next level, right associativity) : js_scope.
Notation "c ;; k" := (bind c (fun _ => k))
  (at level 61, right associativity) : js_scope.

End Runtime.

Import Runtime.
Local Open Scope js_scope.

(* ===================================================================== *)
(** * The log client *)
(* ===================================================================== *)

Module LogClient.

(** ** The pattern [/The next expected sequenceToken is: (\S+)/] *)

(** [\s] on 8-bit code units: tab, line feed, vertical tab, form feed,
    carriage return, space and no-break space. *)
Definition is_space (c : ascii) : bool :=
  let n := nat_of_ascii c in
  (((9 <=? n) && (n <=? 13)) || (n =? 32) || (n =? 160))%nat.

(** The longest run of non-space characters that opens [s]: greedy [\S*]. *)
Fixpoint non_space_run (s : string) : string :=
  match s with
  | EmptyString => EmptyString
  | String c rest =>
      if is_space c then EmptyString else String c (non_space_run rest)
  end.

(** [Some rest] when [s] is [p] followed by [rest]. *)
Fixpoint strip_prefix (p s : string) : option string :=
  match p, s with
  | EmptyString, _ => Some s
  | String a p', String b s' =>
      if (a =? b)%char then strip_prefix p' s' else None
  | String _ _, EmptyString => None
  end.

Definition expected_token_text : string :=
  "The next expected sequenceToken is: ".

(** The pattern tried at the start of [s]; the result is capture group 1. *)
Definition match_here (s : string) : option string :=
  match strip_prefix expected_token_text s with
  | Some rest =>
      match non_space_run rest with
      | EmptyString => None
      | token => Some token
      end
  | None => None
  end.

(** [s.match(/The next expected sequenceToken is: (\S+)/)]: the leftmost
    position at which the pattern matches; [None] is JavaScript's [null]. *)
Fixpoint match_expected_token (s : string) : option string :=
  match match_here s with
  | Some token => Some token
  | None =>
      match s with
      | EmptyString => None
      | String _ rest => match_expected_token rest
      end
  end.

Section WithEnvironment.
Context {env : Environment}.

(** ** [ensureLogGroupExists] *)

Definition create_log_group : M unit :=
  try_catch
    (_ <- send (CreateLogGroupCommand LOG_GROUP_NAME) ;;
     console_log ["Created log group: " ++ LOG_GROUP_NAME])
    (fun error =>
       if name error =? "ResourceAlreadyExistsException" then
         console_log ["Log group already exists: " ++ LOG_GROUP_NAME]
       else if name error =? "AccessDeniedException" then
         console_log
           ["Cannot create log group (access denied), assuming it exists: "
              ++ LOG_GROUP_NAME]
       else
         (console_error ["Error creating log group: " ++ message error] ;;
          throw error)).

Definition create_log_stream : M unit :=
  try_catch
    (_ <- send (CreateLogStreamCommand LOG_GROUP_NAME LOG_STREAM_NAME) ;;
     console_log ["Created log stream: " ++ LOG_STREAM_NAME])
    (fun error =>
       if name error =? "ResourceAlreadyExistsException" then
         console_log ["Log stream already exists: " ++ LOG_STREAM_NAME]
       else if name error =? "AccessDeniedException" then
         console_log
           ["Cannot create log stream (access denied), assuming it exists: "
              ++ LOG_STREAM_NAME]
       else
         (console_error ["Error creating log stream: " ++ message error] ;;
          throw error)).

(** The two [try] statements of the function, one after the other. *)
Definition ensureLogGroupExists : M unit :=
  create_log_group ;; create_log_stream.

(** ** [getSequenceToken] *)

(** [response.logStreams[0].uploadSequenceToken] as a JavaScript value. *)
Definition token_value (s : LogStream) : Value :=
  match uploadSequenceToken s with
  | Some t => VStr t
  | None => VUndefined
  end.

Definition getSequenceToken : M Value :=
  try_catch
    (response <- send (DescribeLogStreamsCommand LOG_GROUP_NAME LOG_STREAM_NAME) ;;
     match logStreams response with
     | Some (first :: _) => ret (token_value first)
     | _ => ret VNull
     end)
    (fun error =>
       console_error ["Error getting sequence token: " ++ message error] ;;
       ret VNull).

(** ** [writeToCloudWatch] *)

(** [if (sequenceToken) { putLogEventsParams.sequenceToken = sequenceToken }]:
    the parameter is set for a truthy token only.  A token comes from
    [token_value], so a truthy one is a string. *)
Definition token_param (sequenceToken : Value) : option string :=
  match sequenceToken with
  | VStr t => if truthy sequenceToken then Some t else None
  | _ => None
  end.

(** The inner [try] of the [catch] block: the second [PutLogEventsCommand]. *)
Definition retry_put (message : Value) (error : Error) : M bool :=
  try_catch
    (t <- now ;;
     let logEvents := [mkLogEvent t (JSON_stringify message)] in
     let sequenceToken := match_expected_token (JS.message error) in
     _ <- send (PutLogEventsCommand LOG_GROUP_NAME LOG_STREAM_NAME
                  logEvents sequenceToken) ;;
     console_log ["Successfully wrote event to CloudWatch Logs (retry)"] ;;
     ret true)
    (fun retryError =>
       console_error ["Retry failed: " ++ JS.message retryError] ;;
       ret false).

Definition writeToCloudWatch (message : Value) : M bool :=
  try_catch
    (sequenceToken <- getSequenceToken ;;
     t <- now ;;
     let logEvent := mkLogEvent t (JSON_stringify message) in
     _ <- send (PutLogEventsCommand LOG_GROUP_NAME LOG_STREAM_NAME
                  [logEvent] (token_param sequenceToken)) ;;
     console_log ["Successfully wrote event to CloudWatch Logs"] ;;
     ret true)
    (fun error =>
       console_error ["Error writing to CloudWatch Logs: " ++ JS.message error] ;;
       if name error =? "InvalidSequenceTokenException"
       then retry_put message error
       else ret false).

End WithEnvironment.

End LogClient.

Import LogClient.

(* ===================================================================== *)
(** * The batch dispatcher: [sesEventsHandler] *)
(* ===================================================================== *)

Module Dispatcher.

Section WithEnvironment.
Context {env : Environment}.

(** [new Date().toISOString()] *)
Definition new_Date_toISOString : M string :=
  t <- now ;; ret (toISOString t).

(** The branch taken for a payload that carries a discriminator: lines
    255-268 of [handler.js]. *)
Definition log_ses_event (snsMessage : Value) : M unit :=
  notificationType <- lift (read snsMessage "notificationType") ;;
  let snsMessage :=
    if truthy notificationType
    then write snsMessage "eventType" notificationType
    else snsMessage in
  timestamp <- new_Date_toISOString ;;
  processedEvent <- lift (processSESEvent timestamp snsMessage) ;;
  written <- writeToCloudWatch processedEvent ;;
  if written : bool then
    (* the template literal converts its two values in turn *)
    kind <- lift (ToString (get snsMessage "eventType")) ;;
    recipient <- lift (ToString (get processedEvent "recipient")) ;;
    console_log ["Processed " ++ kind ++ " event for " ++ recipient]
  else
    console_error ["Failed to write event to CloudWatch"].

(** The body of the [for] loop for one record.  [continue] and falling off
    the end of the body both return [tt]. *)
Definition process_record (record : SNSRecord) : M unit :=
  if EventSource record =? "aws:sns" then
    console_log ["Processing SNS record:"; JSON_stringify_record record] ;;
    console_log ["Raw SNS Message:"; Message (Sns record)] ;;
    match JSON_parse (Message (Sns record)) with
    | inl parseError =>
        console_error ["Failed to parse SNS message:"; JS.message parseError] ;;
        console_error ["Raw message content:"; Message (Sns record)]
    | inr snsMessage =>
        eventType <- lift (read snsMessage "eventType") ;;
        (* [a || b] reads [b] only when [a] is falsy *)
        discriminator <-
          (if truthy eventType then ret eventType
           else lift (read snsMessage "notificationType")) ;;
        if truthy discriminator
        then log_ses_event snsMessage
        else console_log ["Received non-SES SNS message, skipping..."]
    end
  else ret tt.

(** [for (const record of event.Records) { ... }] *)
Fixpoint process_records (records : list SNSRecord) : M unit :=
  match records with
  | [] => ret tt
  | record :: rest => process_record record ;; process_records rest
  end.

Definition sesEventsHandler (event : LambdaEvent) : M HandlerResult :=
  console_log ["Received event:"; JSON_stringify_event event] ;;
  ensureLogGroupExists ;;
  try_catch
    (process_records (Records event))
    (fun error =>
       console_error ["Error processing event: " ++ JS.message error] ;;
       throw error) ;;
  ret (mkResult 200 (JSON_stringify (VStr "Events processed successfully"))).

End WithEnvironment.

End Dispatcher.

Import Dispatcher.

(* ===================================================================== *)
(** * Concrete environments, to run the handler on examples *)
(* ===================================================================== *)

Module Examples.

(** The double quote. *)
Definition dq : ascii := ascii_of_nat 34.

Definition quoted (s : string) : string :=
  String dq (s ++ String dq EmptyString).

Definition decimal (p : positive) : string :=
  NilEmpty.string_of_uint (Pos.to_uint p).

(** A number whose exponent is 0 prints as its integer; the examples use no
    other finite number. *)
Definition number_text (n : spec_float) : string :=
  match n with
  | S754_zero _ => "0"
  | S754_finite sign m 0 => (if sign then "-" else EmptyString) ++ decimal m
  | _ => "null"
  end.

(** [JSON.stringify] on values whose strings need no escape. *)
Fixpoint stringify (v : Value) : string :=
  match v with
  | VUndefined | VNull => "null"
  | VBool true => "true"
  | VBool false => "false"
  | VNum n => number_text n
  | VStr s => quoted s
  | VArr items =>
      "[" ++ String.concat ","
               ((fix each (l : list Value) : list string :=
                   match l with
                   | [] => []
                   | x :: rest => stringify x :: each rest
                   end) items) ++ "]"
  | VObj props =>
      "{" ++ String.concat ","
               ((fix each (l : list (string * Value)) : list string :=
                   match l with
                   | [] => []
                   | (_, VUndefined) :: rest => each rest
                   | (k, x) :: rest =>
                       (quoted k ++ ":" ++ stringify x) :: each rest
                   end) props) ++ "}"
  end.

(** [JSON.parse] restricted to a table of known texts; any other text is a
    syntax error. *)
Fixpoint parse_from (table : list (string * Value)) (text : string)
  : Error + Value :=
  match table with
  | [] => inl (mkError "SyntaxError" "Unexpected token in JSON")
  | (t, v) :: rest => if t =? text then inr v else parse_from rest text
  end.

(** ** A scripted store: it answers the commands with the replies of a
    script, in order, and [no_output] once the script is used up; the clock
    advances by one millisecond at every reading. *)
Record Script : Type :=
  mkScript { replies : list (Error + Response); clock : Z }.

Definition scripted_send (_ : Command) (s : Script)
  : (Error + Response) * Script :=
  match replies s with
  | [] => (inr no_output, s)
  | r :: rest => (r, mkScript rest (clock s))
  end.

Definition scripted_now (s : Script) : Z * Script :=
  (clock s, mkScript (replies s) (clock s + 1)).

Definition scripted (payloads : list (string * Value)) : Environment := {|
  Outside := Script;
  LOG_GROUP_NAME := "/aws/ses/email-events-test";
  store_send := scripted_send;
  Date_now := scripted_now;
  toISOString := fun t => "T" ++ number_text (S754_finite false (Z.to_pos t) 0);
  JSON_parse := parse_from payloads;
  JSON_stringify := stringify;
  JSON_stringify_event := fun _ => "{...}";
  JSON_stringify_record := fun _ => "{...}";
  Number_toString := number_text
|}.

Definition start {payloads} (script : list (Error + Response))
  : @World (scripted payloads) :=
  @mkWorld (scripted payloads) (mkScript script 1000) [] [].

(** ** A store that keeps streams: [DescribeLogStreams] answers with the
    streams whose name starts with the requested prefix, in the order the
    store holds them (by name); every other command succeeds. *)
Definition describing_send (c : Command) (streams : list LogStream)
  : (Error + Response) * list LogStream :=
  match c with
  | DescribeLogStreamsCommand _ p =>
      (inr (mkResponse
              (Some (filter (fun s => String.prefix p (logStreamName s))
                       streams))),
       streams)
  | _ => (inr no_output, streams)
  end.

Definition describing : Environment := {|
  Outside := list LogStream;
  LOG_GROUP_NAME := "/aws/ses/email-events-test";
  store_send := describing_send;
  Date_now := fun o => (1000%Z, o);
  toISOString := fun _ => "T1000";
  JSON_parse := parse_from [];
  JSON_stringify := stringify;
  JSON_stringify_event := fun _ => "{...}";
  JSON_stringify_record := fun _ => "{...}";
  Number_toString := number_text
|}.

(** The errors the examples inject. *)
Definition already_exists : Error :=
  mkError "ResourceAlreadyExistsException" "The specified log group already exists".
Definition access_denied : Error :=
  mkError "AccessDeniedException" "User is not authorized to perform logs:CreateLogGroup".
Definition unavailable : Error :=
  mkError "ServiceUnavailableException" "The service cannot complete the request".
Definition stale_token (detail : string) : Error :=
  mkError "InvalidSequenceTokenException" detail.

(** ** Payloads *)

Definition integer (p : positive) : Value := VNum (S754_finite false p 0).

Definition mail_section : Value :=
  VObj [ ("source", VStr "sender@example.com");
         ("messageId", VStr "0000014a-f4d6");
         ("destination", VArr [VStr "recipient@example.com"]);
         ("commonHeaders", VObj [("subject", VStr "Test Email")]) ].

(** The payload of [test-event.js], without the properties nothing reads. *)
Definition delivery_payload : Value :=
  VObj [ ("eventType", VStr "delivery");
         ("mail", mail_section);
         ("delivery", VObj [ ("processingTimeMillis", integer 5000);
                             ("smtpResponse", VStr "250 OK") ]) ].

Definition bounce_payload : Value :=
  VObj [ ("eventType", VStr "Bounce");
         ("mail", mail_section);
         ("bounce", VObj [ ("bounceType", VStr "Permanent");
                           ("bounceSubType", VStr "General");
                           ("bouncedRecipients",
                             VArr [VObj [("emailAddress",
                                          VStr "recipient@example.com")]]) ]) ].

(** A bounce in the legacy shape: [notificationType] and no [eventType]. *)
Definition legacy_bounce_payload : Value :=
  VObj [ ("notificationType", VStr "Bounce");
         ("mail", mail_section);
         ("bounce", VObj [("bounceType", VStr "Transient")]) ].

(** An SNS message that is not an SES event. *)
Definition subscription_payload : Value :=
  VObj [("Type", VStr "SubscriptionConfirmation")].

(** A payload with both discriminators, the legacy one empty. *)
Definition empty_legacy_payload : Value :=
  VObj [ ("eventType", VStr "Bounce");
         ("notificationType", VStr EmptyString);
         ("bounce", VObj [("bounceType", VStr "Permanent")]) ].

(** A bounce whose first destination is an object with a property
    [toString]. *)
Definition unconvertible_payload : Value :=
  VObj [ ("eventType", VStr "Bounce");
         ("mail",
           VObj [("destination",
                   VArr [VObj [("toString", VNum (S754_finite false 1 0))]])]) ].

Definition payloads : list (string * Value) :=
  [ (stringify delivery_payload, delivery_payload);
    (stringify empty_legacy_payload, empty_legacy_payload);
    (stringify unconvertible_payload, unconvertible_payload);
    (stringify bounce_payload, bounce_payload);
    (stringify legacy_bounce_payload, legacy_bounce_payload);
    (stringify subscription_payload, subscription_payload);
    ("null", VNull) ].

(** The environment of the examples, and a record to append. *)
Definition env : Environment := scripted payloads.

Definition small_record : Value :=
  VObj [("messageId", VStr "0000014a-f4d6"); ("eventType", VStr "Bounce")].

Definition sns (v : Value) : SNSRecord := mkRecord "aws:sns" (mkSns (stringify v)).
Definition garbled : SNSRecord := mkRecord "aws:sns" (mkSns "{not json").
Definition foreign : SNSRecord := mkRecord "aws:sqs" (mkSns "{not json").

End Examples.

(* ===================================================================== *)
(** * The vocabulary of the specification *)
(* ===================================================================== *)

Module Spec.

(** ** Normalizer *)

(** The two spellings under which each [case] group of the [switch] is
    entered. *)
Definition kind_spellings : list (string * string) :=
  [ ("Bounce", "bounce");
    ("Complaint", "complaint");
    ("Delivery", "delivery");
    ("Send", "send");
    ("Reject", "reject");
    ("Rendering Failure", "renderingFailure") ].

(** The properties of the object literal in [processSESEvent]. *)
Definition base_fields : list string :=
  [ "timestamp"; "messageId"; "eventType"; "recipient"; "source"; "subject";
    "rawEvent" ].

(** The properties the [switch] may add. *)
Definition detail_fields : list string :=
  [ "bounceType"; "bounceSubType"; "bouncedRecipients";
    "complaintFeedbackType"; "complainedRecipients";
    "processingTimeMillis"; "smtpResponse";
    "reason"; "errorMessage"; "templateName" ].

(** The base fields that fall back to ["unknown"], with the place of their
    source in the payload. *)
Definition defaulted_fields : list (string * list string) :=
  [ ("messageId", ["mail"; "messageId"]);
    ("eventType", ["eventType"]);
    ("recipient", ["mail"; "destination"; "0"]);
    ("source", ["mail"; "source"]);
    ("subject", ["mail"; "commonHeaders"; "subject"]) ].

(** The list-typed extra fields: the discriminator that adds them, their
    name, and the place of their source in the payload. *)
Definition list_fields : list (string * string * list string) :=
  [ ("Bounce", "bouncedRecipients", ["bounce"; "bouncedRecipients"]);
    ("bounce", "bouncedRecipients", ["bounce"; "bouncedRecipients"]);
    ("Complaint", "complainedRecipients", ["complaint"; "complainedRecipients"]);
    ("complaint", "complainedRecipients", ["complaint"; "complainedRecipients"]) ].

(** A record without the properties named in [keys]. *)
Definition without (keys : list string) (props : list (string * Value))
  : list (string * Value) :=
  fold_right remove props keys.

(** The value found by following [path] with [?.] from [v]. *)
Fixpoint get_at (path : list string) (v : Value) : Value :=
  match path with
  | [] => v
  | k :: rest => get_at rest (opt_get v k)
  end.

(** [v] with the property at the end of [path] deleted. *)
Fixpoint remove_at (path : list string) (v : Value) : Value :=
  match path with
  | [] => v
  | k :: rest =>
      match v with
      | VObj props =>
          match rest with
          | [] => VObj (remove k props)
          | _ :: _ =>
              match lookup k props with
              | Some child => VObj (assign k (remove_at rest child) props)
              | None => v
              end
          end
      | _ => v
      end
  end.

(** Where the string-valued base fields come from in the payload. *)
Definition string_field_paths : list (list string) :=
  [ ["mail"; "messageId"];
    ["mail"; "source"];
    ["mail"; "commonHeaders"; "subject"];
    ["eventType"] ].

Definition processing_time_path : list string :=
  ["delivery"; "processingTimeMillis"].

(** ** Log client *)

(** A creation failure that [ensureLogGroupExists] lets pass. *)
Definition tolerated (error : Error) : bool :=
  (name error =? "ResourceAlreadyExistsException")
  || (name error =? "AccessDeniedException").

(** The failure of one creation step that aborts the invocation, if any. *)
Definition fatal (reply : Error + Response) : option Error :=
  match reply with
  | inl error => if tolerated error then None else Some error
  | inr _ => None
  end.

(** The cursor "by exact-name match", following the specification's words:
    the token of the stream called [stream], absent when no stream has that
    name or the stream has no token yet. *)
Fixpoint cursor_by_exact_name (stream : string) (streams : list LogStream)
  : option string :=
  match streams with
  | [] => None
  | s :: rest =>
      if logStreamName s =? stream then uploadSequenceToken s
      else cursor_by_exact_name stream rest
  end.

(** The cursor the code takes from a reply to [DescribeLogStreams]. *)
Definition first_cursor (reply : Error + Response) : Value :=
  match reply with
  | inr response =>
      match logStreams response with
      | Some (first :: _) => token_value first
      | _ => VNull
      end
  | inl _ => VNull
  end.

Definition succeeded {A} (reply : Error + A) : bool :=
  match reply with inr _ => true | inl _ => false end.

Definition is_conflict (error : Error) : bool :=
  name error =? "InvalidSequenceTokenException".

Section WithEnvironment.
Context {env : Environment}.

(** The single-entry batch for [message], stamped [t], with cursor [token]. *)
Definition put (t : Z) (message : Value) (token : option string) : Command :=
  PutLogEventsCommand LOG_GROUP_NAME LOG_STREAM_NAME
    [mkLogEvent t (JSON_stringify message)] token.

Definition describe : Command :=
  DescribeLogStreamsCommand LOG_GROUP_NAME LOG_STREAM_NAME.

(** [command] submits exactly the serialized [message] to the stream. *)
Definition is_put_of (message : Value) (command : Command) : Prop :=
  exists t token, command = put t message token.

(** The commands of one call of [writeToCloudWatch(message)]: the cursor
    lookup, then one or two submissions of [message]. *)
Definition one_append (message : Value) (commands : list Command) : Prop :=
  exists puts,
    commands = describe :: puts
    /\ (1 <= length puts <= 2)%nat
    /\ Forall (is_put_of message) puts.

(** ** Dispatcher *)

(** The payload as the dispatcher hands it to the normalizer: lines 255-257. *)
Definition with_legacy_kind (payload : Value) : Value :=
  if truthy (get payload "notificationType")
  then write payload "eventType" (get payload "notificationType")
  else payload.

(** The value that ends up as [recipient] in the record of [m]. *)
Definition recipient_of (m : Value) : Value :=
  opt_get (opt_get (get m "mail") "destination") "0" ||| unknown.

Definition printable (v : Value) : bool :=
  match ToString v with inr _ => true | inl _ => false end.

(** The two values that the dispatcher interpolates after a successful
    append of [payload] convert to strings. *)
Definition reportable (payload : Value) : bool :=
  printable (get (with_legacy_kind payload) "eventType")
  && printable (recipient_of (with_legacy_kind payload)).

(** What follows the append of [pe], built from [payload], when
    [writeToCloudWatch] has returned [written]: how the branch ends and the
    console lines it adds (lines 262-268). *)
Definition outcome (payload pe : Value) (written : bool)
  : (Error + unit) * list Line :=
  if written then
    match ToString (get (with_legacy_kind payload) "eventType") with
    | inl error => (inl error, [])
    | inr kind =>
        match ToString (get pe "recipient") with
        | inl error => (inl error, [])
        | inr recipient =>
            (inr tt,
             [(LOG, ["Processed " ++ kind ++ " event for " ++ recipient])])
        end
    end
  else (inr tt, [(ERROR, ["Failed to write event to CloudWatch"])]).

(** A record the loop passes over: it does not come from SNS, or its payload
    decodes to a value (other than [null]) without a discriminator. *)
Definition passed_over (record : SNSRecord) : Prop :=
  EventSource record <> "aws:sns"
  \/ exists payload,
       JSON_parse (Message (Sns record)) = inr payload
       /\ nullish payload = false
       /\ truthy (get payload "eventType") = false
       /\ truthy (get payload "notificationType") = false.

(** An SNS record whose payload decodes and carries a discriminator. *)
Definition relevant (record : SNSRecord) (payload : Value) : Prop :=
  EventSource record = "aws:sns"
  /\ JSON_parse (Message (Sns record)) = inr payload
  /\ (truthy (get payload "eventType") = true
      \/ truthy (get payload "notificationType") = true).

(** The four console lines of an undecodable record. *)
Definition decode_failure_lines (record : SNSRecord) (parseError : Error)
  : list Line :=
  [ (LOG, ["Processing SNS record:"; JSON_stringify_record record]);
    (LOG, ["Raw SNS Message:"; Message (Sns record)]);
    (ERROR, ["Failed to parse SNS message:"; message parseError]);
    (ERROR, ["Raw message content:"; Message (Sns record)]) ].

Definition add_lines (lines : list Line) (w : World) : World :=
  mkWorld (outside w) (sent w) (console w ++ lines)%list.

(** The world in which the handler starts the setup: after its first
    console line. *)
Definition received (event : LambdaEvent) (w : World) : World :=
  add_lines [(LOG, ["Received event:"; JSON_stringify_event event])] w.

End WithEnvironment.

End Spec.

Import Spec.

(* ===================================================================== *)
(** * The test driver: [test-event.js] *)
(* ===================================================================== *)

Module TestEvent.

(** The object that the script serializes into [Sns.Message]. *)
Definition test_payload : Value :=
  VObj
    [ ("eventType", VStr "delivery");
      ("mail",
        VObj
          [ ("timestamp", VStr "2023-01-01T12:00:00.000Z");
            ("source", VStr "sender@example.com");
            ("sourceArn",
              VStr "arn:aws:ses:us-east-1:123456789012:identity/example.com");
            ("sourceIp", VStr "192.0.2.1");
            ("sendingAccountId", VStr "123456789012");
            ("messageId", VStr "0000014a-f4d6-4f12-ac76-d6efd6d6d6d6-000000");
            ("destination", VArr [VStr "recipient@example.com"]);
            ("headersTruncated", VBool false);
            ("headers",
              VArr
                [ VObj [("name", VStr "From");
                        ("value", VStr "sender@example.com")];
                  VObj [("name", VStr "To");
                        ("value", VStr "recipient@example.com")];
                  VObj [("name", VStr "Subject");
                        ("value", VStr "Test Email")] ]);
            ("commonHeaders",
              VObj [ ("from", VArr [VStr "sender@example.com"]);
                     ("to", VArr [VStr "recipient@example.com"]);
                     ("subject", VStr "Test Email") ]) ]);
      ("delivery",
        VObj
          [ ("timestamp", VStr "2023-01-01T12:00:05.000Z");
            ("processingTimeMillis", VNum (S754_finite false 5000 0));
            ("recipients", VArr [VStr "recipient@example.com"]);
            ("smtpResponse", VStr "250 OK");
            ("reportingMTA", VStr "a8-70.smtp-out.amazonses.com") ]) ].

(** An environment to run the script in: a scripted store, and a parser
    that knows the test message. *)
Definition example_env : Environment :=
  Examples.scripted [(Examples.stringify test_payload, test_payload)].

Section WithEnvironment.
Context {env : Environment}.

(** How [console] prints the handler's result and a caught error. *)
Variable inspect_result : HandlerResult -> string.
Variable inspect_error : Error -> string.

Definition testEvent : LambdaEvent :=
  mkEvent [mkRecord "aws:sns" (mkSns (JSON_stringify test_payload))].

(** [runTest()]: [Some 1] is [process.exit(1)], [None] a normal return.  The
    handler does not read its [context] argument. *)
Definition runTest (w : World) : option Z * World :=
  match (console_log ["Running test event..."] ;;
         sesEventsHandler testEvent) w with
  | (inr result, w') =>
      (None,
       mkWorld (outside w') (sent w')
         (console w'
            ++ [(LOG, ["Test completed successfully:"; inspect_result result])])%list)
  | (inl error, w') =>
      (Some 1%Z,
       mkWorld (outside w') (sent w')
         (console w' ++ [(ERROR, ["Test failed:"; inspect_error error])])%list)
  end.

End WithEnvironment.

End TestEvent.

(* ===================================================================== *)
(** * Further vocabulary: what the code does beyond the specification *)
(* ===================================================================== *)

Module Coverage.

(** ** Normalizer *)

(** For each [case] group: its two labels and, for each property it adds,
    the place of the source in the payload and the default. *)
Definition detail_table
  : list ((string * string) * list (string * list string * Value)) :=
  [ (("Bounce", "bounce"),
       [ ("bounceType", ["bounce"; "bounceType"], unknown);
         ("bounceSubType", ["bounce"; "bounceSubType"], unknown);
         ("bouncedRecipients", ["bounce"; "bouncedRecipients"], empty_array) ]);
    (("Complaint", "complaint"),
       [ ("complaintFeedbackType",
            ["complaint"; "complaintFeedbackType"], unknown);
         ("complainedRecipients",
            ["complaint"; "complainedRecipients"], empty_array) ]);
    (("Delivery", "delivery"),
       [ ("processingTimeMillis", ["delivery"; "processingTimeMillis"], zero);
         ("smtpResponse", ["delivery"; "smtpResponse"], unknown) ]);
    (("Send", "send"), []);
    (("Reject", "reject"), [("reason", ["reject"; "reason"], unknown)]);
    (("Rendering Failure", "renderingFailure"),
       [ ("errorMessage", ["failure"; "errorMessage"], unknown);
         ("templateName", ["failure"; "templateName"], unknown) ]) ].

(** The properties of the payload that [processSESEvent] reads. *)
Definition read_properties : list string :=
  ["mail"; "eventType"; "bounce"; "complaint"; "delivery"; "reject"; "failure"].

(** A discriminator that is one of the twelve [case] labels. *)
Definition recognized (kind : Value) : bool :=
  match kind with
  | VStr k =>
      existsb (fun group => (k =? fst (fst group)) || (k =? snd (fst group)))
        detail_table
  | _ => false
  end.

(** ** Log client *)

Fixpoint no_space (s : string) : bool :=
  match s with
  | EmptyString => true
  | String c rest => negb (is_space c) && no_space rest
  end.

(** The text ends here or goes on with a space. *)
Definition at_word_end (post : string) : Prop :=
  match post with
  | EmptyString => True
  | String c _ => is_space c = true
  end.

(** The cursor that a reply to the lookup puts on the first submission: the
    first listed stream's token when it is a non-empty string. *)
Definition cursor_of (reply : Error + Response) : option string :=
  match reply with
  | inr response =>
      match logStreams response with
      | Some (first :: _) =>
          match uploadSequenceToken first with
          | Some (String c rest) => Some (String c rest)
          | _ => None
          end
      | _ => None
      end
  | inl _ => None
  end.

(** ** Dispatcher *)

(** What the loop does with a record. *)
Inductive Fate : Type :=
| Ignored                       (* not from SNS *)
| Undecodable (parseError : Error)
| Irrelevant                    (* decodes, no truthy discriminator *)
| Logged (payload : Value)
| Poison.                       (* decodes to [null] or [undefined] *)

Section WithEnvironment.
Context {env : Environment}.

Definition fate (record : SNSRecord) : Fate :=
  if EventSource record =? "aws:sns" then
    match JSON_parse (Message (Sns record)) with
    | inl parseError => Undecodable parseError
    | inr payload =>
        if nullish payload then Poison
        else if truthy (get payload "eventType")
                || truthy (get payload "notificationType")
        then Logged payload
        else Irrelevant
    end
  else Ignored.

Definition poisonous (record : SNSRecord) : bool :=
  match fate record with Poison => true | _ => false end.

(** The payloads of the records that get logged, in batch order. *)
Fixpoint logged_payloads (records : list SNSRecord) : list Value :=
  match records with
  | [] => []
  | record :: rest =>
      match fate record with
      | Logged payload => payload :: logged_payloads rest
      | _ => logged_payloads rest
      end
  end.

(** [commands] is one append of the record built from [payload]. *)
Definition append_of (payload : Value) (commands : list Command) : Prop :=
  exists ts pe,
    processSESEvent ts (with_legacy_kind payload) = inr pe
    /\ one_append pe commands.

(** [commands] is, in order, one append per payload of [payloads]. *)
Definition appends_of (payloads : list Value) (commands : list Command) : Prop :=
  exists groups,
    commands = concat groups /\ Forall2 append_of payloads groups.

End WithEnvironment.

End Coverage.

Import Coverage.

(* ===================================================================== *)
(** * Properties of objects *)
(* ===================================================================== *)

Module ObjectFacts.

Lemma lookup_assign_same k v props : lookup k (assign k v props) = Some v.
Proof.
  induction props as [|[k' v'] rest IH]; simpl.
  - now rewrite String.eqb_refl.
  - destruct (k' =? k) eqn:E; simpl.
    + now rewrite String.eqb_refl.
    + now rewrite E.
Qed.

Lemma lookup_assign_other k k' v props :
  k <> k' -> lookup k' (assign k v props) = lookup k' props.
Proof.
  intros D. induction props as [|[k0 v0] rest IH]; simpl.
  - destruct (k =? k') eqn:E; [apply String.eqb_eq in E; contradiction | easy].
  - destruct (k0 =? k) eqn:E; simpl.
    + apply String.eqb_eq in E. subst k0.
      destruct (k =? k') eqn:E'; [apply String.eqb_eq in E'; contradiction | easy].
    + destruct (k0 =? k'); [easy | exact IH].
Qed.

Lemma lookup_remove_same k props : lookup k (remove k props) = None.
Proof.
  induction props as [|[k' v'] rest IH]; simpl; [easy|].
  destruct (k' =? k) eqn:E; simpl; [exact IH | now rewrite E].
Qed.

Lemma lookup_remove_other k k' props :
  k <> k' -> lookup k' (remove k props) = lookup k' props.
Proof.
  intros D. induction props as [|[k0 v0] rest IH]; simpl; [easy|].
  destruct (k0 =? k) eqn:E; simpl.
  - apply String.eqb_eq in E. subst k0.
    destruct (k =? k') eqn:E'; [apply String.eqb_eq in E'; contradiction | exact IH].
  - destruct (k0 =? k'); [easy | exact IH].
Qed.

(** Deleting one property and assigning another commute. *)
Lemma remove_assign_other k k' v props :
  k <> k' -> remove k' (assign k v props) = assign k v (remove k' props).
Proof.
  intros D. induction props as [|[k0 v0] rest IH]; simpl.
  - destruct (k =? k') eqn:E; [apply String.eqb_eq in E; contradiction | easy].
  - destruct (k0 =? k) eqn:E; simpl.
    + apply String.eqb_eq in E. subst k0.
      destruct (k =? k') eqn:E'; [apply String.eqb_eq in E'; contradiction|].
      simpl. now rewrite String.eqb_refl.
    + destruct (k0 =? k') eqn:E'; simpl; [exact IH|].
      rewrite E. now rewrite IH.
Qed.

Lemma get_object k props :
  get (VObj props) k
  = match lookup k props with Some x => x | None => VUndefined end.
Proof. reflexivity. Qed.

Lemma get_assign_same k v props : get (VObj (assign k v props)) k = v.
Proof. simpl. now rewrite lookup_assign_same. Qed.

Lemma get_assign_other k k' v props :
  k <> k' -> get (VObj (assign k v props)) k' = get (VObj props) k'.
Proof. intros D. simpl. now rewrite lookup_assign_other. Qed.

Lemma get_remove_same k props : get (VObj (remove k props)) k = VUndefined.
Proof. simpl. now rewrite lookup_remove_same. Qed.

Lemma get_remove_other k k' props :
  k <> k' -> get (VObj (remove k props)) k' = get (VObj props) k'.
Proof. intros D. simpl. now rewrite lookup_remove_other. Qed.

(** Only an object has a truthy named property: a primitive or an array
    passes the dispatcher's test for no name that is not an index. *)
Lemma truthy_named_property v k :
  array_index k = None -> truthy (get v k) = true -> is_object v = true.
Proof.
  intros I. destruct v; simpl; try discriminate; try rewrite I; try discriminate.
  reflexivity.
Qed.

Lemma or_else_truthy a b : truthy b = true -> truthy (a ||| b) = true.
Proof. unfold or_else. destruct (truthy a) eqn:E; auto. Qed.

Lemma or_else_truthy_left a b : truthy a = true -> a ||| b = a.
Proof. unfold or_else. now intros ->. Qed.

Lemma or_else_falsy a b : truthy a = false -> a ||| b = b.
Proof. unfold or_else. now intros ->. Qed.

Lemma truthy_not_nullish v : truthy v = true -> nullish v = false.
Proof. destruct v; simpl; congruence. Qed.

End ObjectFacts.

Import ObjectFacts.

(* ===================================================================== *)
(** * Properties of the normalizer *)
(* ===================================================================== *)

Module NormalizerFacts.

Ltac other_key H :=
  let E := fresh in intros E; apply H; rewrite <- E; simpl; tauto.

Ltac split_kind :=
  repeat match goal with
    | |- context [if ?c then _ else _] => destruct c
    end.

(** The [switch] leaves every other property of the record alone. *)
Lemma lookup_event_details k m pe :
  ~ In k detail_fields -> lookup k (event_details m pe) = lookup k pe.
Proof.
  intros H. unfold event_details.
  destruct (get m "eventType"); try reflexivity.
  unfold bounce_details, complaint_details, delivery_details, reject_details,
    renderingFailure_details.
  split_kind; try reflexivity;
    repeat (rewrite lookup_assign_other; [| other_key H]); reflexivity.
Qed.

Lemma remove_event_details k m pe :
  ~ In k detail_fields ->
  remove k (event_details m pe) = event_details m (remove k pe).
Proof.
  intros H. unfold event_details.
  destruct (get m "eventType"); try reflexivity.
  unfold bounce_details, complaint_details, delivery_details, reject_details,
    renderingFailure_details.
  split_kind; try reflexivity;
    repeat (rewrite remove_assign_other; [| other_key H]); reflexivity.
Qed.

(** The [switch] reads the discriminator and the five detail sections, and
    nothing else of the payload. *)
Lemma event_details_reads m1 m2 pe :
  get m1 "eventType" = get m2 "eventType" ->
  get m1 "bounce" = get m2 "bounce" ->
  get m1 "complaint" = get m2 "complaint" ->
  get m1 "delivery" = get m2 "delivery" ->
  get m1 "reject" = get m2 "reject" ->
  get m1 "failure" = get m2 "failure" ->
  event_details m1 pe = event_details m2 pe.
Proof.
  intros He Hb Hc Hd Hr Hf. unfold event_details.
  rewrite He. destruct (get m2 "eventType"); try reflexivity.
  unfold bounce_details, complaint_details, delivery_details, reject_details,
    renderingFailure_details.
  now rewrite Hb, Hc, Hd, Hr, Hf.
Qed.

(** Two spellings of one kind select the same [case] group. *)
Lemma event_details_spelling m1 m2 cap low pe :
  In (cap, low) kind_spellings ->
  get m1 "eventType" = VStr cap ->
  get m2 "eventType" = VStr low ->
  (forall k, k <> "eventType" -> get m1 k = get m2 k) ->
  event_details m1 pe = event_details m2 pe.
Proof.
  intros Hin H1 H2 Hk. unfold event_details. rewrite H1, H2.
  unfold bounce_details, complaint_details, delivery_details, reject_details,
    renderingFailure_details.
  simpl in Hin.
  repeat (destruct Hin as [Hin | Hin];
          [injection Hin as <- <-; simpl;
           repeat (rewrite (Hk _) by discriminate); reflexivity |]).
  contradiction.
Qed.

(** A section that is missing or falsy reads like the empty object. *)
Lemma section_or_empty section k :
  get (section ||| empty_object) k = opt_get section k.
Proof.
  unfold or_else, opt_get.
  destruct (truthy section) eqn:T.
  - now rewrite (truthy_not_nullish _ T).
  - destruct section as [| |b|n|s|items|props]; simpl in *; try reflexivity;
      try discriminate.
    destruct s; try discriminate.
    destruct (array_index k) as [i|]; [destruct i|]; reflexivity.
Qed.

Lemma processSESEvent_defined ts m :
  nullish m = false ->
  processSESEvent ts m
  = inr (VObj (event_details m (base_record ts m))).
Proof. destruct m; simpl; try discriminate; reflexivity. Qed.

Lemma opt_get_defined m k : nullish m = false -> opt_get m k = get m k.
Proof. unfold opt_get. now intros ->. Qed.

End NormalizerFacts.

Import NormalizerFacts.

(* ===================================================================== *)
(** * Claims about the normalizer *)
(* ===================================================================== *)

(** C4.  For every raw notification (any payload but [null] and
    [undefined], so every mapping), [processSESEvent] returns a record in
    which each of the seven base fields is present and is neither
    [undefined] nor [null]; a base field whose source is missing from the
    payload (or falsy) holds ["unknown"]; and a list-typed extra field whose
    source is missing holds the empty array. *)
Theorem processSESEvent_complete (ts : string) (m : Value) :
  nullish m = false ->
  exists pe,
    processSESEvent ts m = inr (VObj pe)
    /\ (forall k, In k base_fields ->
          exists v, lookup k pe = Some v /\ nullish v = false)
    /\ (forall k path, In (k, path) defaulted_fields ->
          truthy (get_at path m) = false -> lookup k pe = Some unknown)
    /\ (forall kind k path, In (kind, k, path) list_fields ->
          get m "eventType" = VStr kind ->
          truthy (get_at path m) = false -> lookup k pe = Some empty_array).
Proof.
  intros Hm. exists (event_details m (base_record ts m)).
  split; [now apply processSESEvent_defined|].
  assert (base : forall k, In k base_fields -> ~ In k detail_fields).
  { simpl. intros k H D.
    repeat (destruct H as [<- | H];
            [repeat (destruct D as [D | D]; [discriminate|]); contradiction|]).
    contradiction. }
  split; [|split].
  - intros k H. rewrite lookup_event_details by now apply base.
    simpl in H.
    repeat (destruct H as [<- | H];
            [simpl; eexists; split; [reflexivity|];
             try reflexivity; try assumption;
             apply truthy_not_nullish, or_else_truthy; reflexivity|]).
    contradiction.
  - intros k path H F.
    assert (Hk : In k base_fields).
    { simpl in H |- *.
      repeat (destruct H as [H | H]; [injection H as <- _; tauto|]).
      contradiction. }
    rewrite lookup_event_details by now apply base.
    simpl in H.
    repeat (destruct H as [H | H];
            [injection H as <- <-; simpl in F |- *;
             rewrite (opt_get_defined m) in F by assumption;
             now rewrite (or_else_falsy _ _ F)|]).
    contradiction.
  - intros kind k path H K F. unfold event_details. rewrite K.
    simpl in H.
    repeat (destruct H as [H | H];
            [injection H as <- <- <-; cbn [get_at] in F;
             cbn [String.eqb Ascii.eqb Bool.eqb orb];
             rewrite (opt_get_defined m) in F by assumption;
             unfold bounce_details, complaint_details;
             rewrite lookup_assign_same, section_or_empty;
             now rewrite (or_else_falsy _ _ F)|]).
    contradiction.
Qed.

(** The hypothesis of C4 holds of the payload of [test-event.js]. *)
Lemma processSESEvent_complete_witness :
  nullish Examples.delivery_payload = false
  /\ exists pe,
       processSESEvent "T" Examples.delivery_payload = inr (VObj pe)
       /\ (forall k, In k base_fields ->
             exists v, lookup k pe = Some v /\ nullish v = false)
       /\ (forall k path, In (k, path) defaulted_fields ->
             truthy (get_at path Examples.delivery_payload) = false ->
             lookup k pe = Some unknown)
       /\ (forall kind k path, In (kind, k, path) list_fields ->
             get Examples.delivery_payload "eventType" = VStr kind ->
             truthy (get_at path Examples.delivery_payload) = false ->
             lookup k pe = Some empty_array).
Proof.
  split; [reflexivity|].
  apply (processSESEvent_complete "T" Examples.delivery_payload).
  reflexivity.
Defined.

(** C3, as stated, fails: the record copies the discriminator into its own
    [eventType] and keeps the payload in [rawEvent], so the two spellings of
    a bounce give two different records. *)
Lemma kind_spelling_counterexample :
  processSESEvent "T" (VObj [("eventType", VStr "Bounce")])
  <> processSESEvent "T" (VObj [("eventType", VStr "bounce")]).
Proof. discriminate. Qed.

(** C3, amended.  Take two payloads that differ only in the spelling of the
    discriminator, the two spellings being those of one [case] group
    ([Bounce]/[bounce], ..., [Rendering Failure]/[renderingFailure]).  Their
    records have the same properties in the same order and agree on every
    property but [eventType] and [rawEvent]; [eventType] holds the spelling
    as received and [rawEvent] the payload as received. *)
Theorem kind_spelling_invariance (ts : string) (m1 m2 : Value) (cap low : string) :
  In (cap, low) kind_spellings ->
  get m1 "eventType" = VStr cap ->
  get m2 "eventType" = VStr low ->
  (forall k, k <> "eventType" -> get m1 k = get m2 k) ->
  exists p1 p2,
    processSESEvent ts m1 = inr (VObj p1)
    /\ processSESEvent ts m2 = inr (VObj p2)
    /\ without ["eventType"; "rawEvent"] p1 = without ["eventType"; "rawEvent"] p2
    /\ map fst p1 = map fst p2
    /\ lookup "eventType" p1 = Some (VStr cap)
    /\ lookup "eventType" p2 = Some (VStr low)
    /\ lookup "rawEvent" p1 = Some m1
    /\ lookup "rawEvent" p2 = Some m2.
Proof.
  intros Hin H1 H2 Hk.
  assert (N1 : nullish m1 = false) by (destruct m1; try reflexivity; discriminate).
  assert (N2 : nullish m2 = false) by (destruct m2; try reflexivity; discriminate).
  exists (event_details m1 (base_record ts m1)), (event_details m2 (base_record ts m2)).
  split; [now apply processSESEvent_defined|].
  split; [now apply processSESEvent_defined|].
  assert (R : forall k, In k ["eventType"; "rawEvent"] -> ~ In k detail_fields).
  { simpl. intros k H D.
    repeat (destruct H as [<- | H];
            [repeat (destruct D as [D | D]; [discriminate|]); contradiction|]).
    contradiction. }
  split; [|split].
  - unfold without. cbn [fold_right].
    rewrite !remove_event_details by (apply R; simpl; tauto).
    rewrite (event_details_spelling m1 m2 cap low) by assumption.
    f_equal. unfold base_record. cbn.
    now rewrite (Hk "mail") by discriminate.
  - unfold event_details. rewrite H1, H2.
    unfold bounce_details, complaint_details, delivery_details,
      reject_details, renderingFailure_details.
    simpl in Hin.
    repeat (destruct Hin as [Hin | Hin];
            [injection Hin as <- <-; reflexivity|]).
    contradiction.
  - rewrite !lookup_event_details by (apply R; simpl; tauto).
    unfold base_record. cbn. rewrite H1, H2.
    simpl in Hin.
    repeat (destruct Hin as [Hin | Hin];
            [injection Hin as <- <-; repeat split; reflexivity|]).
    contradiction.
Qed.

(** The hypotheses of the amended C3 hold of the example bounce and its
    lowercase twin. *)
Lemma kind_spelling_invariance_witness :
  let m1 := Examples.bounce_payload in
  let m2 := write Examples.bounce_payload "eventType" (VStr "bounce") in
  exists p1 p2,
    processSESEvent "T" m1 = inr (VObj p1)
    /\ processSESEvent "T" m2 = inr (VObj p2)
    /\ without ["eventType"; "rawEvent"] p1 = without ["eventType"; "rawEvent"] p2
    /\ map fst p1 = map fst p2
    /\ lookup "eventType" p1 = Some (VStr "Bounce")
    /\ lookup "eventType" p2 = Some (VStr "bounce")
    /\ lookup "rawEvent" p1 = Some m1
    /\ lookup "rawEvent" p2 = Some m2.
Proof.
  intros m1 m2.
  apply (kind_spelling_invariance "T" m1 m2 "Bounce" "bounce").
  - simpl. tauto.
  - reflexivity.
  - reflexivity.
  - intros k D. unfold m1, m2, Examples.bounce_payload, write.
    symmetry. apply get_assign_other. congruence.
Defined.

(** A named property with a value is a property of an object. *)
Lemma opt_get_found v k x :
  opt_get v k = x -> array_index k = None -> x <> VUndefined ->
  exists props, v = VObj props /\ lookup k props = Some x.
Proof.
  intros G I D. unfold opt_get in G.
  destruct v as [| |b|n|s|items|props]; simpl in G; try rewrite I in G;
    try congruence.
  exists props. split; [reflexivity|].
  destruct (lookup k props); congruence.
Qed.

(** Two payloads whose reads agree give the same record, [rawEvent] apart. *)
Lemma normalize_congruence ts m1 m2 :
  get m1 "eventType" ||| unknown = get m2 "eventType" ||| unknown ->
  opt_get (get m1 "mail") "messageId" ||| unknown
  = opt_get (get m2 "mail") "messageId" ||| unknown ->
  opt_get (opt_get (get m1 "mail") "destination") "0"
  = opt_get (opt_get (get m2 "mail") "destination") "0" ->
  opt_get (get m1 "mail") "source" ||| unknown
  = opt_get (get m2 "mail") "source" ||| unknown ->
  opt_get (opt_get (get m1 "mail") "commonHeaders") "subject" ||| unknown
  = opt_get (opt_get (get m2 "mail") "commonHeaders") "subject" ||| unknown ->
  (forall pe, event_details m1 pe = event_details m2 pe) ->
  remove "rawEvent" (event_details m1 (base_record ts m1))
  = remove "rawEvent" (event_details m2 (base_record ts m2)).
Proof.
  intros He Hi Hr Hs Hj Hd.
  assert (R : ~ In "rawEvent" detail_fields).
  { simpl. intros D.
    repeat (destruct D as [D | D]; [discriminate|]). contradiction. }
  rewrite !remove_event_details by exact R.
  rewrite Hd. f_equal. unfold base_record. cbn.
  now rewrite He, Hi, Hr, Hs, Hj.
Qed.

(** C10, as stated, fails: the record keeps the payload in [rawEvent], so a
    payload with an empty [source] and the same payload without [source]
    give two different records. *)
Lemma empty_source_counterexample :
  let m := VObj [("mail", VObj [("source", VStr EmptyString)])] in
  get_at ["mail"; "source"] m = VStr EmptyString
  /\ remove_at ["mail"; "source"] m = VObj [("mail", VObj [])]
  /\ processSESEvent "T" m
     <> processSESEvent "T" (remove_at ["mail"; "source"] m).
Proof. repeat split. discriminate. Qed.

(** C10, amended.  When a string source of a base field ([mail.messageId],
    [mail.source], [mail.commonHeaders.subject], [eventType]) is present
    with the empty string, or [delivery.processingTimeMillis] is present
    with a zero, the record is, apart from [rawEvent], identical to the
    record for the same payload with that property removed; [rawEvent]
    holds each payload as received. *)
Theorem falsy_as_absent (ts : string) (m : Value) (path : list string) :
  (In path string_field_paths /\ get_at path m = VStr EmptyString)
  \/ (path = processing_time_path
      /\ exists sign, get_at path m = VNum (S754_zero sign)) ->
  exists p1 p2,
    processSESEvent ts m = inr (VObj p1)
    /\ processSESEvent ts (remove_at path m) = inr (VObj p2)
    /\ remove "rawEvent" p1 = remove "rawEvent" p2
    /\ lookup "rawEvent" p1 = Some m
    /\ lookup "rawEvent" p2 = Some (remove_at path m).
Proof.
  assert (R : ~ In "rawEvent" detail_fields).
  { simpl. intros D.
    repeat (destruct D as [D | D]; [discriminate|]). contradiction. }
  assert (finish : forall m',
    nullish m = false -> nullish m' = false ->
    remove "rawEvent" (event_details m (base_record ts m))
    = remove "rawEvent" (event_details m' (base_record ts m')) ->
    exists p1 p2,
      processSESEvent ts m = inr (VObj p1)
      /\ processSESEvent ts m' = inr (VObj p2)
      /\ remove "rawEvent" p1 = remove "rawEvent" p2
      /\ lookup "rawEvent" p1 = Some m
      /\ lookup "rawEvent" p2 = Some m').
  { intros m' N N' E.
    exists (event_details m (base_record ts m)),
           (event_details m' (base_record ts m')).
    rewrite !processSESEvent_defined by assumption.
    rewrite !lookup_event_details by exact R.
    repeat split; assumption || reflexivity. }
  intros [[Hin G] | [-> [sign G]]].
  - simpl in Hin.
    destruct Hin as [<- | [<- | [<- | [<- | []]]]]; cbn [get_at] in G.
    + (* mail.messageId *)
      destruct (opt_get_found _ _ _ G eq_refl) as (mail & Em & Lm); [discriminate|].
      destruct (opt_get_found _ _ _ Em eq_refl) as (props & -> & Lp); [discriminate|].
      cbn [remove_at]. rewrite Lp. apply finish; try reflexivity.
      apply normalize_congruence;
        rewrite ?get_assign_same, ?(get_assign_other "mail") by discriminate;
        try reflexivity.
      * rewrite get_object, Lp. unfold opt_get. cbn [nullish].
        now rewrite get_remove_same, get_object, Lm.
      * rewrite get_object, Lp. unfold opt_get at 2 4. cbn [nullish].
        now rewrite get_remove_other by discriminate.
      * rewrite get_object, Lp. unfold opt_get. cbn [nullish].
        now rewrite get_remove_other by discriminate.
      * rewrite get_object, Lp. unfold opt_get at 2 4. cbn [nullish].
        now rewrite get_remove_other by discriminate.
      * intros pe. apply event_details_reads;
          now rewrite get_assign_other by discriminate.
    + (* mail.source *)
      destruct (opt_get_found _ _ _ G eq_refl) as (mail & Em & Lm); [discriminate|].
      destruct (opt_get_found _ _ _ Em eq_refl) as (props & -> & Lp); [discriminate|].
      cbn [remove_at]. rewrite Lp. apply finish; try reflexivity.
      apply normalize_congruence;
        rewrite ?get_assign_same, ?(get_assign_other "mail") by discriminate;
        try reflexivity.
      * rewrite get_object, Lp. unfold opt_get. cbn [nullish].
        now rewrite get_remove_other by discriminate.
      * rewrite get_object, Lp. unfold opt_get at 2 4. cbn [nullish].
        now rewrite get_remove_other by discriminate.
      * rewrite get_object, Lp. unfold opt_get. cbn [nullish].
        now rewrite get_remove_same, get_object, Lm.
      * rewrite get_object, Lp. unfold opt_get at 2 4. cbn [nullish].
        now rewrite get_remove_other by discriminate.
      * intros pe. apply event_details_reads;
          now rewrite get_assign_other by discriminate.
    + (* mail.commonHeaders.subject *)
      destruct (opt_get_found _ _ _ G eq_refl) as (headers & Eh & Lh); [discriminate|].
      destruct (opt_get_found _ _ _ Eh eq_refl) as (mail & Em & Lm); [discriminate|].
      destruct (opt_get_found _ _ _ Em eq_refl) as (props & -> & Lp); [discriminate|].
      cbn [remove_at]. rewrite Lp, Lm. apply finish; try reflexivity.
      apply normalize_congruence;
        rewrite ?get_assign_same, ?(get_assign_other "mail") by discriminate;
        try reflexivity.
      * rewrite get_object, Lp. unfold opt_get. cbn [nullish].
        now rewrite get_assign_other by discriminate.
      * rewrite get_object, Lp. unfold opt_get at 2 4. cbn [nullish].
        now rewrite get_assign_other by discriminate.
      * rewrite get_object, Lp. unfold opt_get. cbn [nullish].
        now rewrite get_assign_other by discriminate.
      * rewrite get_object, Lp. unfold opt_get at 2 4. cbn [nullish].
        rewrite get_assign_same, get_object, Lm. unfold opt_get. cbn [nullish].
        now rewrite get_remove_same, get_object, Lh.
      * intros pe. apply event_details_reads;
          now rewrite get_assign_other by discriminate.
    + (* eventType *)
      destruct (opt_get_found _ _ _ G eq_refl) as (props & -> & Lp); [discriminate|].
      cbn [remove_at]. apply finish; try reflexivity.
      apply normalize_congruence;
        rewrite ?get_remove_same, ?(get_remove_other "eventType") by discriminate;
        try reflexivity.
      * now rewrite get_object, Lp.
      * intros pe. unfold event_details.
        rewrite get_remove_same, get_object, Lp. reflexivity.
  - (* delivery.processingTimeMillis *)
    unfold processing_time_path in *. cbn [get_at] in G.
    destruct (opt_get_found _ _ _ G eq_refl) as (delivery & Ed & Ld); [discriminate|].
    destruct (opt_get_found _ _ _ Ed eq_refl) as (props & -> & Lp); [discriminate|].
    cbn [remove_at]. rewrite Lp. apply finish; try reflexivity.
    apply normalize_congruence;
      rewrite ?(get_assign_other "delivery") by discriminate;
      try reflexivity.
    intros pe. unfold event_details.
    rewrite (get_assign_other "delivery") by discriminate.
    destruct (get (VObj props) "eventType"); try reflexivity.
    unfold bounce_details, complaint_details, delivery_details, reject_details,
      renderingFailure_details.
    rewrite get_assign_same, !(get_assign_other "delivery") by discriminate.
    rewrite (get_object "delivery"), Lp.
    assert (O : forall ps, VObj ps ||| empty_object = VObj ps) by reflexivity.
    rewrite !O, get_remove_same.
    rewrite (get_remove_other "processingTimeMillis") by discriminate.
    rewrite (get_object "processingTimeMillis"), Ld.
    reflexivity.
Qed.

(** The hypothesis of the amended C10 holds of a payload whose [source] is
    the empty string. *)
Lemma falsy_as_absent_witness :
  let m := VObj [("mail", VObj [("source", VStr EmptyString)])] in
  exists p1 p2,
    processSESEvent "T" m = inr (VObj p1)
    /\ processSESEvent "T" (remove_at ["mail"; "source"] m) = inr (VObj p2)
    /\ remove "rawEvent" p1 = remove "rawEvent" p2
    /\ lookup "rawEvent" p1 = Some m
    /\ lookup "rawEvent" p2 = Some (remove_at ["mail"; "source"] m).
Proof.
  intros m.
  apply (falsy_as_absent "T" m ["mail"; "source"]).
  left. split; [simpl; tauto | reflexivity].
Defined.

(* ===================================================================== *)
(** * Properties of the log client *)
(* ===================================================================== *)

Module LogClientFacts.

Ltac run :=
  unfold bind, try_catch, send, now, lift, ret, throw, console_log,
    console_error.

(** ** The pattern *)

Lemma strip_prefix_sound p s rest :
  strip_prefix p s = Some rest -> s = p ++ rest.
Proof.
  revert s. induction p as [|a p IH]; intros [|b s]; simpl; try congruence.
  destruct (Ascii.eqb_spec a b); [|discriminate].
  intros H. subst b. now rewrite (IH _ H).
Qed.

(** A non-space run is followed by the end of the text or by a space. *)
Lemma non_space_run_split s :
  exists post,
    s = non_space_run s ++ post
    /\ match post with
       | EmptyString => True
       | String c _ => is_space c = true
       end.
Proof.
  induction s as [|c s (post & E & H)]; simpl.
  - now exists EmptyString.
  - destruct (is_space c) eqn:S.
    + now exists (String c s).
    + exists post. simpl. now rewrite <- E.
Qed.

(** What the capture group holds: the text after an occurrence of the fixed
    wording, up to the next space. *)
Lemma match_expected_token_sound s token :
  match_expected_token s = Some token ->
  exists pre post,
    s = pre ++ expected_token_text ++ token ++ post
    /\ token <> EmptyString
    /\ match post with
       | EmptyString => True
       | String c _ => is_space c = true
       end.
Proof.
  induction s as [|c s IH].
  - cbn. discriminate.
  - cbn [match_expected_token]. destruct (match_here (String c s)) eqn:M.
    + intros [= ->]. unfold match_here in M.
      destruct (strip_prefix expected_token_text (String c s)) as [rest|] eqn:P;
        [|discriminate].
      apply strip_prefix_sound in P.
      destruct (non_space_run rest) eqn:N; [discriminate|].
      injection M as <-.
      destruct (non_space_run_split rest) as (post & E & H).
      exists EmptyString, post. rewrite P, E at 1. rewrite N.
      repeat split; [discriminate | exact H].
    + intros H. destruct (IH H) as (pre & post & E & D & T).
      exists (String c pre), post. simpl. now rewrite E.
Qed.

Section WithEnvironment.
Context {env : Environment}.

(** ** [getSequenceToken] always returns *)

Lemma getSequenceToken_run (w : World) :
  exists lines,
    getSequenceToken w
    = (inr (first_cursor (fst (store_send describe (outside w)))),
       mkWorld (snd (store_send describe (outside w)))
         (sent w ++ [describe]) (console w ++ lines)).
Proof.
  unfold getSequenceToken, describe. run.
  destruct (store_send _ (outside w)) as [[e|response] o]; simpl.
  - eexists [_]. reflexivity.
  - exists []. rewrite app_nil_r.
    destruct (logStreams response) as [[|first rest]|]; reflexivity.
Qed.

End WithEnvironment.

End LogClientFacts.

Import LogClientFacts.

(* ===================================================================== *)
(** * Claims about the log client *)
(* ===================================================================== *)

Section LogClientClaims.
Context {env : Environment}.

(** C5.  [ensureLogGroupExists] sends [CreateLogGroup].  If that fails
    with an error other than "already exists" and "access denied", the
    error is thrown and nothing more is sent.  Otherwise (success, "already
    exists" or "access denied") it sends [CreateLogStream], and returns
    normally unless that one fails with an error other than the two
    tolerated ones, which is then thrown.  An error thrown by the setup is
    thrown by the handler, which stops there. *)
Theorem ensureLogGroupExists_outcome (event : LambdaEvent) (w : World) :
  let group := CreateLogGroupCommand LOG_GROUP_NAME in
  let stream := CreateLogStreamCommand LOG_GROUP_NAME LOG_STREAM_NAME in
  let w0 := received event w in
  let (reply1, o1) := store_send group (outside w0) in
  let (reply2, o2) := store_send stream o1 in
  let (result, w') := ensureLogGroupExists w0 in
  match fatal reply1 with
  | Some error =>
      result = inl error
      /\ sesEventsHandler event w = (inl error, w')
      /\ sent w' = (sent w0 ++ [group])%list
      /\ outside w' = o1
  | None =>
      match fatal reply2 with
      | Some error =>
          result = inl error /\ sesEventsHandler event w = (inl error, w')
      | None => result = inr tt
      end
      /\ sent w' = (sent w0 ++ [group; stream])%list
      /\ outside w' = o2
  end.
Proof.
  intros group stream w0.
  assert (abort : forall error w1,
            ensureLogGroupExists w0 = (inl error, w1) ->
            sesEventsHandler event w = (inl error, w1)).
  { intros error w1 E. unfold sesEventsHandler, bind at 1 2, console_log at 1.
    fold (add_lines [(LOG, ["Received event:"; JSON_stringify_event event])] w).
    fold (received event w). fold w0. now rewrite E. }
  revert abort.
  unfold ensureLogGroupExists, create_log_group, create_log_stream,
    fatal, tolerated. run. subst group stream.
  destruct (store_send _ (outside w0)) as [[e1|r1] o1] eqn:S1; simpl.
  - destruct (store_send _ o1) as [[e2|r2] o2] eqn:S2;
      destruct (name e1 =? "ResourceAlreadyExistsException");
      [| destruct (name e1 =? "AccessDeniedException") | |
       destruct (name e1 =? "AccessDeniedException")];
      simpl; rewrite ?S2; simpl;
      try (destruct (name e2 =? "ResourceAlreadyExistsException");
           [| destruct (name e2 =? "AccessDeniedException")]);
      simpl; rewrite <- ?app_assoc; intros abort;
      repeat match goal with |- _ /\ _ => split end;
      try reflexivity; apply abort; reflexivity.
  - destruct (store_send _ o1) as [[e2|r2] o2] eqn:S2; simpl;
      try (destruct (name e2 =? "ResourceAlreadyExistsException");
           [| destruct (name e2 =? "AccessDeniedException")]);
      simpl; rewrite <- ?app_assoc; intros abort;
      repeat match goal with |- _ /\ _ => split end;
      try reflexivity; apply abort; reflexivity.
Qed.

(** C2, amended.  [getSequenceToken] sends one [DescribeLogStreams] whose
    name prefix is the fixed stream name, and returns, without ever
    throwing: [null] when the lookup fails; [null] when the reply lists no
    stream; otherwise the token of the first stream of the reply, whatever
    its name ([undefined] when that stream has no token yet). *)
Theorem getSequenceToken_first_stream (w : World) :
  let reply := fst (store_send describe (outside w)) in
  let (result, w') := getSequenceToken w in
  sent w' = (sent w ++ [DescribeLogStreamsCommand LOG_GROUP_NAME
                          "ses-email-events-stream"])%list
  /\ outside w' = snd (store_send describe (outside w))
  /\ result
     = inr match reply with
           | inl _ => VNull
           | inr response =>
               match logStreams response with
               | None | Some [] => VNull
               | Some (first :: _) =>
                   match uploadSequenceToken first with
                   | Some token => VStr token
                   | None => VUndefined
                   end
               end
           end.
Proof.
  destruct (getSequenceToken_run w) as (lines & ->). cbn [sent outside].
  repeat split.
Qed.

(** C1, amended.  When the first submission of [writeToCloudWatch] fails
    with [InvalidSequenceTokenException], exactly one more submission
    follows, of the same single entry; its cursor is what the pattern
    [The next expected sequenceToken is: (\S+)] captures in the error
    message, and it carries no cursor when the pattern does not match.  The
    call returns [true] when that second submission succeeds and [false]
    when it fails, and sends nothing more. *)
Theorem writeToCloudWatch_conflict
  (message : Value) (w w1 : World) (cursor : Value) (t1 t2 : Z)
  (o1 o2 o3 o4 : Outside) (error : Error) (reply : Error + Response) :
  getSequenceToken w = (inr cursor, w1) ->
  Date_now (outside w1) = (t1, o1) ->
  store_send (put t1 message (token_param cursor)) o1 = (inl error, o2) ->
  is_conflict error = true ->
  Date_now o2 = (t2, o3) ->
  store_send (put t2 message (match_expected_token (JS.message error))) o3
  = (reply, o4) ->
  exists w',
    writeToCloudWatch message w = (inr (succeeded reply), w')
    /\ sent w'
       = (sent w ++ [ describe;
                      put t1 message (token_param cursor);
                      put t2 message (match_expected_token (JS.message error)) ])%list
    /\ outside w' = o4.
Proof.
  intros G N1 S1 C N2 S2.
  destruct (getSequenceToken_run w) as (lines & G').
  rewrite G in G'. injection G' as Ec Ew.
  unfold writeToCloudWatch, retry_put. run. rewrite G.
  unfold put in S1, S2. unfold is_conflict in C.
  rewrite N1. cbn [outside sent console]. rewrite S1, C.
  cbn [outside sent console]. rewrite N2. cbn [outside sent console].
  rewrite S2. rewrite Ew. cbn [sent].
  destruct reply as [e|r]; eexists; (split; [reflexivity|]);
    cbn [sent outside]; rewrite <- !app_assoc; split; reflexivity.
Qed.

End LogClientClaims.

Section LogClientExamples.
Import Examples.

(** C1, as stated, fails.  The stream's cursor is ["OLD"]; the first
    submission is refused as a cursor conflict whose message does not carry
    the expected wording; the store accepts the second.  The call submits a
    second time, without a cursor, and returns [true]; the claim has it
    return [false] without a further submission. *)
Lemma unparsed_conflict_counterexample :
  let detail := "The given sequenceToken is invalid" in
  let w0 : @World env :=
    start [ inr (mkResponse (Some [mkLogStream LOG_STREAM_NAME (Some "OLD")]));
            inl (stale_token detail);
            inr no_output ] in
  match_expected_token detail = None
  /\ fst (writeToCloudWatch (env := env) small_record w0) = inr true
  /\ sent (snd (writeToCloudWatch (env := env) small_record w0))
     = [ describe (env := env);
         put (env := env) 1000 small_record (Some "OLD");
         put (env := env) 1001 small_record None ].
Proof. repeat split. Qed.

(** The hypotheses of the amended C1 hold in a run where the conflict
    message names the cursor [ABC123] and the store accepts the retry. *)
Lemma writeToCloudWatch_conflict_witness :
  let detail :=
    "The given sequenceToken is invalid. The next expected sequenceToken is: ABC123" in
  let w0 : @World env :=
    start [ inr (mkResponse (Some [mkLogStream LOG_STREAM_NAME (Some "OLD")]));
            inl (stale_token detail);
            inr no_output ] in
  match_expected_token detail = Some "ABC123"
  /\ exists w',
       writeToCloudWatch (env := env) small_record w0 = (inr true, w')
       /\ sent w'
          = [ describe (env := env);
              put (env := env) 1000 small_record (Some "OLD");
              put (env := env) 1001 small_record (Some "ABC123") ]
       /\ outside w' = mkScript [] 1002.
Proof.
  intros detail w0. split; [reflexivity|].
  apply (writeToCloudWatch_conflict (env := env) small_record w0
           (snd (getSequenceToken (env := env) w0)) (VStr "OLD") 1000 1001
           (mkScript [inl (stale_token detail); inr no_output] 1001)
           (mkScript [inr no_output] 1001)
           (mkScript [inr no_output] 1002)
           (mkScript [] 1002)
           (stale_token detail) (inr no_output));
    reflexivity.
Defined.

(** C2, as stated, fails.  The store holds no stream called
    [ses-email-events-stream], only one whose name starts with it; looking
    the cursor up by exact name finds nothing, and [getSequenceToken]
    returns the other stream's token. *)
Lemma exact_name_counterexample :
  let streams :=
    [mkLogStream "ses-email-events-stream-archive" (Some "49590")] in
  let w0 : @World describing := @mkWorld describing streams [] [] in
  cursor_by_exact_name LOG_STREAM_NAME streams = None
  /\ fst (getSequenceToken (env := describing) w0) = inr (VStr "49590").
Proof. repeat split. Qed.

End LogClientExamples.

(* ===================================================================== *)
(** * Properties of the dispatcher *)
(* ===================================================================== *)

Module DispatcherFacts.

Section WithEnvironment.
Context {env : Environment}.

(** One call of [writeToCloudWatch] always returns a boolean, after the
    cursor lookup and one or two submissions of the message. *)
Lemma writeToCloudWatch_total (message : Value) (w : World) :
  exists written w' commands,
    writeToCloudWatch message w = (inr written, w')
    /\ sent w' = (sent w ++ commands)%list
    /\ one_append message commands.
Proof.
  destruct (getSequenceToken_run w) as (lines & G).
  unfold writeToCloudWatch, retry_put. run. rewrite G.
  set (cursor := first_cursor _). set (o0 := snd _).
  destruct (Date_now (outside (mkWorld o0 _ _))) as [t1 o1] eqn:N1.
  cbn [outside sent console] in *. rewrite ?N1.
  destruct (store_send _ o1) as [[e|r] o2] eqn:S1; cbn [outside sent console].
  - destruct (name e =? "InvalidSequenceTokenException").
    + cbn [outside sent console].
      destruct (Date_now o2) as [t2 o3] eqn:N2. cbn [outside sent console].
      destruct (store_send _ o3) as [[e2|r2] o4] eqn:S2;
        cbn [outside sent console];
        do 3 eexists; (split; [reflexivity|]); cbn [sent];
        rewrite <- !app_assoc; (split; [reflexivity|]);
        eexists; (split; [reflexivity|]); (split; [simpl; lia|]);
        repeat constructor; do 2 eexists; reflexivity.
    + do 3 eexists; (split; [reflexivity|]); cbn [sent];
        rewrite <- !app_assoc; (split; [reflexivity|]);
        eexists; (split; [reflexivity|]); (split; [simpl; lia|]);
        repeat constructor; do 2 eexists; reflexivity.
  - do 3 eexists; (split; [reflexivity|]); cbn [sent];
      rewrite <- !app_assoc; (split; [reflexivity|]);
      eexists; (split; [reflexivity|]); (split; [simpl; lia|]);
      repeat constructor; do 2 eexists; reflexivity.
Qed.

(** The branch for a payload with a discriminator normalizes the payload
    ([notificationType] copied over [eventType] when truthy), builds its
    record and appends it, once; what follows the append is [outcome]. *)
Lemma log_ses_event_run (payload : Value) (w : World) :
  is_object payload = true ->
  exists pe commands written w2,
    processSESEvent (toISOString (fst (Date_now (outside w))))
      (with_legacy_kind payload) = inr pe
    /\ writeToCloudWatch pe
         (mkWorld (snd (Date_now (outside w))) (sent w) (console w))
       = (inr written, w2)
    /\ sent w2 = (sent w ++ commands)%list
    /\ one_append pe commands
    /\ log_ses_event payload w
       = (fst (outcome payload pe written),
          add_lines (snd (outcome payload pe written)) w2).
Proof.
  intros O. destruct payload as [| | | | | |props]; try discriminate.
  unfold log_ses_event, new_Date_toISOString, outcome, with_legacy_kind,
    add_lines.
  run. cbn [read].
  set (m := if truthy _ then _ else _).
  assert (N : nullish m = false) by (subst m; destruct (truthy _); reflexivity).
  destruct (Date_now (outside w)) as [t o] eqn:D. cbn [fst snd].
  rewrite (processSESEvent_defined _ _ N).
  set (pe := VObj _).
  destruct (writeToCloudWatch_total pe (mkWorld o (sent w) (console w)))
    as (written & w2 & commands & E & S & A).
  rewrite E. cbn [sent] in S.
  exists pe, commands, written, w2.
  split; [reflexivity|]. split; [exact E|]. split; [exact S|].
  split; [exact A|].
  destruct written; cbn [fst snd].
  - destruct (ToString (get m "eventType")) as [e|kind]; cbn [fst snd].
    + rewrite app_nil_r. now destruct w2.
    + destruct (ToString (get pe "recipient")) as [e|recipient];
        cbn [fst snd]; [rewrite app_nil_r; now destruct w2 | reflexivity].
  - reflexivity.
Qed.

(** The [recipient] of a record is [recipient_of] its payload. *)
Lemma recipient_of_record ts m pe :
  processSESEvent ts m = inr pe -> get pe "recipient" = recipient_of m.
Proof.
  intros E.
  assert (N : nullish m = false) by (destruct m; try reflexivity; discriminate).
  rewrite processSESEvent_defined in E by exact N. injection E as <-.
  rewrite get_object, lookup_event_details.
  - reflexivity.
  - simpl. intros D.
    repeat (destruct D as [D | D]; [discriminate|]). contradiction.
Qed.

(** With both values convertible, the branch ends normally on one line. *)
Lemma outcome_reportable payload pe ts written :
  processSESEvent ts (with_legacy_kind payload) = inr pe ->
  reportable payload = true ->
  exists line, outcome payload pe written = (inr tt, [line]).
Proof.
  intros E R. unfold reportable, printable in R.
  apply andb_true_iff in R. destruct R as [K P].
  unfold outcome. rewrite (recipient_of_record _ _ _ E).
  destruct written; [|eexists; reflexivity].
  destruct (ToString (get (with_legacy_kind payload) "eventType"));
    [discriminate|].
  destruct (ToString (recipient_of (with_legacy_kind payload)));
    [discriminate|].
  eexists; reflexivity.
Qed.

(** The branch throws only after a successful append, and only when one of
    the two values cannot be converted. *)
Lemma outcome_throws payload pe ts written error :
  processSESEvent ts (with_legacy_kind payload) = inr pe ->
  fst (outcome payload pe written) = inl error ->
  written = true /\ reportable payload = false.
Proof.
  intros E. unfold outcome, reportable, printable.
  rewrite (recipient_of_record _ _ _ E).
  destruct written; [|discriminate].
  destruct (ToString (get (with_legacy_kind payload) "eventType"));
    [intros _; now split|].
  destruct (ToString (recipient_of (with_legacy_kind payload)));
    [intros _; now split | discriminate].
Qed.

(** A record the loop passes over leaves the store untouched. *)
Lemma process_record_passed_over (record : SNSRecord) (w : World) :
  passed_over record ->
  exists lines, process_record record w = (inr tt, add_lines lines w).
Proof.
  unfold process_record, add_lines. intros [D | (payload & P & N & E & L)].
  - destruct (String.eqb_spec (EventSource record) "aws:sns"); [contradiction|].
    exists []. unfold ret. rewrite app_nil_r. now destruct w.
  - destruct (EventSource record =? "aws:sns"); run.
    + rewrite P. cbn [outside sent console].
      destruct payload; try discriminate; cbn [read] in *;
        rewrite ?E, ?L; cbn [outside sent console];
        rewrite <- !app_assoc; eexists; reflexivity.
    + exists []. rewrite app_nil_r. now destruct w.
Qed.

Lemma process_records_passed_over (records : list SNSRecord) (w : World) :
  Forall passed_over records ->
  exists lines, process_records records w = (inr tt, add_lines lines w).
Proof.
  intros F. revert w. induction F as [|record rest P F IH]; intros w.
  - exists []. unfold add_lines. cbn. unfold ret. rewrite app_nil_r.
    now destruct w.
  - cbn [process_records]. unfold bind.
    destruct (process_record_passed_over record w P) as (l1 & ->).
    destruct (IH (add_lines l1 w)) as (l2 & ->).
    exists (l1 ++ l2)%list. unfold add_lines. cbn. now rewrite app_assoc.
Qed.

(** An undecodable SNS record logs its four lines and nothing else. *)
Lemma process_record_undecodable (record : SNSRecord) (e : Error) (w : World) :
  EventSource record = "aws:sns" ->
  JSON_parse (Message (Sns record)) = inl e ->
  process_record record w
  = (inr tt, add_lines (decode_failure_lines record e) w).
Proof.
  intros S P. unfold process_record, add_lines, decode_failure_lines.
  rewrite S, P. run. cbn. now rewrite <- !app_assoc.
Qed.

(** A relevant record reaches the branch that logs the event. *)
Lemma process_record_relevant (record : SNSRecord) (payload : Value) (w : World) :
  relevant record payload ->
  is_object payload = true
  /\ exists lines,
       process_record record w = log_ses_event payload (add_lines lines w).
Proof.
  intros (S & P & T).
  assert (O : is_object payload = true).
  { destruct T as [T | T].
    - exact (truthy_named_property _ "eventType" eq_refl T).
    - exact (truthy_named_property _ "notificationType" eq_refl T). }
  split; [exact O|].
  destruct payload as [| | | | | |props]; try discriminate.
  unfold process_record, add_lines. rewrite S, P. run.
  cbn [read String.eqb Ascii.eqb Bool.eqb outside sent console].
  rewrite <- !app_assoc. eexists.
  destruct (truthy (get (VObj props) "eventType")) eqn:E.
  - rewrite E. reflexivity.
  - destruct T as [T | T]; [congruence|]. rewrite T. reflexivity.
Qed.

(** The loop over a concatenation. *)
Lemma process_records_app (xs ys : list SNSRecord) (w : World) :
  process_records (xs ++ ys) w
  = match process_records xs w with
    | (inr _, w1) => process_records ys w1
    | (inl e, w1) => (inl e, w1)
    end.
Proof.
  revert w. induction xs as [|x xs IH]; intros w; [reflexivity|].
  cbn [process_records app]. unfold bind.
  destruct (process_record x w) as [[e|[]] w1]; [reflexivity | apply IH].
Qed.

End WithEnvironment.

End DispatcherFacts.

Import DispatcherFacts.

(* ===================================================================== *)
(** * Claims about the dispatcher *)
(* ===================================================================== *)

Section DispatcherClaims.
Context {env : Environment}.

(** C7.  An SNS record whose payload does not decode adds its four console
    lines (two of them errors) and nothing else: the store is not
    touched, and the loop goes on with the records that follow it exactly as
    it would have without the record. *)
Theorem undecodable_record_is_skipped
  (before rest : list SNSRecord) (record : SNSRecord) (parseError : Error)
  (w : World) :
  EventSource record = "aws:sns" ->
  JSON_parse (Message (Sns record)) = inl parseError ->
  let skip := add_lines (decode_failure_lines record parseError) in
  process_record record w = (inr tt, skip w)
  /\ sent (skip w) = sent w
  /\ outside (skip w) = outside w
  /\ process_records (record :: rest) w = process_records rest (skip w)
  /\ process_records (before ++ record :: rest) w
     = match process_records before w with
       | (inr _, w1) => process_records rest (skip w1)
       | (inl thrown, w1) => (inl thrown, w1)
       end.
Proof.
  intros S P skip.
  assert (one : forall w0, process_records (record :: rest) w0
                           = process_records rest (skip w0)).
  { intros w0. cbn [process_records]. unfold bind.
    now rewrite (process_record_undecodable record parseError w0 S P). }
  repeat split.
  - now apply process_record_undecodable.
  - apply one.
  - rewrite process_records_app.
    destruct (process_records before w) as [[thrown|[]] w1];
      [reflexivity | apply one].
Qed.

(** C9, amended.  When the payload of an SNS record has a truthy
    [notificationType] (with or without an [eventType]), the dispatcher
    assigns it to [eventType] before normalizing: the record that is
    appended is the one built from the payload so modified, and its
    [eventType] is the value of [notificationType].  The loop body then
    returns normally, unless the append succeeded and the kind or the
    recipient cannot be converted to a string for the console. *)
Theorem legacy_kind_takes_precedence
  (record : SNSRecord) (payload kind : Value) (w : World) :
  EventSource record = "aws:sns" ->
  JSON_parse (Message (Sns record)) = inr payload ->
  get payload "notificationType" = kind ->
  truthy kind = true ->
  exists result w' ts pe commands,
    process_record record w = (result, w')
    /\ processSESEvent ts (write payload "eventType" kind) = inr pe
    /\ get pe "eventType" = kind
    /\ get (get pe "rawEvent") "eventType" = kind
    /\ sent w' = (sent w ++ commands)%list
    /\ one_append pe commands
    /\ (result = inr tt
        \/ exists error, result = inl error /\ reportable payload = false).
Proof.
  intros S P K T.
  assert (Rel : relevant record payload).
  { repeat split; try assumption. right. now rewrite K. }
  destruct (process_record_relevant record payload w Rel) as (O & l & ->).
  destruct (log_ses_event_run payload (add_lines l w) O)
    as (pe & commands & written & w2 & E & _ & Sent & One & ->).
  assert (W : with_legacy_kind payload = write payload "eventType" kind).
  { unfold with_legacy_kind. now rewrite K, T. }
  exists (fst (outcome payload pe written)),
         (add_lines (snd (outcome payload pe written)) w2),
         (toISOString (fst (Date_now (outside (add_lines l w))))), pe, commands.
  split; [reflexivity|]. split; [now rewrite <- W|].
  assert (Out : fst (outcome payload pe written) = inr tt
                \/ exists error,
                     fst (outcome payload pe written) = inl error
                     /\ reportable payload = false).
  { destruct (fst (outcome payload pe written)) as [error|[]] eqn:F.
    - right. exists error. split; [reflexivity|].
      exact (proj2 (outcome_throws _ _ _ _ _ E F)).
    - now left. }
  rewrite W in E.
  destruct payload as [| | | | | |props]; try discriminate.
  cbn [write] in E. rewrite processSESEvent_defined in E by reflexivity.
  injection E as <-.
  assert (B : forall k, In k base_fields -> ~ In k detail_fields).
  { simpl. intros k H D.
    repeat (destruct H as [<- | H];
            [repeat (destruct D as [D | D]; [discriminate|]); contradiction|]).
    contradiction. }
  refine (conj _ (conj _ (conj Sent (conj One Out))));
    rewrite !get_object, !lookup_event_details by (apply B; simpl; tauto);
    unfold base_record; cbn [lookup String.eqb Ascii.eqb Bool.eqb];
    rewrite !get_assign_same.
  - now apply or_else_truthy_left.
  - reflexivity.
Qed.

End DispatcherClaims.

Section DispatcherExamples.
Import Examples.
#[local] Existing Instance Examples.env.

(** The hypotheses of C7 hold of a garbled record followed by a bounce. *)
Lemma undecodable_record_is_skipped_witness :
  let w0 : @World env := start [] in
  let parseError := mkError "SyntaxError" "Unexpected token in JSON" in
  let skip := add_lines (decode_failure_lines garbled parseError) in
  process_record (env := env) garbled w0 = (inr tt, skip w0)
  /\ sent (skip w0) = sent w0
  /\ outside (skip w0) = outside w0
  /\ process_records (garbled :: [sns bounce_payload]) w0
     = process_records [sns bounce_payload] (skip w0)
  /\ process_records ([] ++ garbled :: [sns bounce_payload]) w0
     = match process_records [] w0 with
       | (inr _, w1) => process_records [sns bounce_payload] (skip w1)
       | (inl thrown, w1) => (inl thrown, w1)
       end.
Proof.
  intros w0 parseError.
  apply (undecodable_record_is_skipped (env := env) [] [sns bounce_payload]
           garbled parseError w0); reflexivity.
Defined.

(** C9, as stated, fails.  The payload has both discriminators, the legacy
    one being the empty string.  [eventType] is not overwritten: the record
    that is appended is the one built from the payload as it came, a
    bounce. *)
Lemma empty_legacy_kind_counterexample :
  let w' :=
    snd (process_record (env := env) (sns empty_legacy_payload) (start [])) in
  JSON_parse (Message (Sns (sns empty_legacy_payload)))
  = inr empty_legacy_payload
  /\ get empty_legacy_payload "eventType" = VStr "Bounce"
  /\ get empty_legacy_payload "notificationType" = VStr EmptyString
  /\ exists pe,
       processSESEvent "T1000" empty_legacy_payload = inr pe
       /\ sent w' = [describe (env := env); put (env := env) 1001 pe None]
       /\ get pe "eventType" = VStr "Bounce"
       /\ get pe "bounceType" = VStr "Permanent"
       /\ get (get pe "rawEvent") "eventType" = VStr "Bounce".
Proof.
  cbv zeta. repeat split. eexists. repeat split.
Qed.

(** The hypotheses of the amended C9 hold of the legacy bounce. *)
Lemma legacy_kind_takes_precedence_witness :
  let w0 : @World env := start [] in
  exists result w' ts pe commands,
    process_record (env := env) (sns legacy_bounce_payload) w0 = (result, w')
    /\ processSESEvent ts
         (write legacy_bounce_payload "eventType" (VStr "Bounce")) = inr pe
    /\ get pe "eventType" = VStr "Bounce"
    /\ get (get pe "rawEvent") "eventType" = VStr "Bounce"
    /\ sent w' = (sent w0 ++ commands)%list
    /\ one_append pe commands
    /\ (result = inr tt
        \/ exists error,
             result = inl error /\ reportable legacy_bounce_payload = false).
Proof.
  intros w0.
  apply (legacy_kind_takes_precedence (env := env) (sns legacy_bounce_payload)
           legacy_bounce_payload (VStr "Bounce") w0); reflexivity.
Defined.

(** C8 at a payload in the legacy shape.  The payload decoded from the
    record has no [eventType]; the [rawEvent] of the record submitted to the
    store has one: it is the decoded payload after the dispatcher's
    assignment, not the payload as decoded. *)
Lemma rawEvent_of_legacy_payload :
  let w' :=
    snd (process_record (env := env) (sns legacy_bounce_payload) (start [])) in
  JSON_parse (Message (Sns (sns legacy_bounce_payload)))
  = inr legacy_bounce_payload
  /\ get legacy_bounce_payload "eventType" = VUndefined
  /\ exists pe,
       sent w' = [describe (env := env); put (env := env) 1001 pe None]
       /\ get pe "rawEvent"
          = write legacy_bounce_payload "eventType" (VStr "Bounce")
       /\ get (get pe "rawEvent") "eventType" = VStr "Bounce"
       /\ get pe "rawEvent" <> legacy_bounce_payload.
Proof.
  cbv zeta. repeat split. eexists. repeat split. discriminate.
Qed.

(** ** Further runs *)

(** The event of [test-event.js] against a store that accepts everything:
    setup, one lookup, one submission without cursor. *)
Example test_event_run :
  let w' :=
    snd (sesEventsHandler (env := env) (mkEvent [sns delivery_payload])
           (start [])) in
  exists pe,
    processSESEvent "T1000" delivery_payload = inr pe
    /\ sent w'
       = [ CreateLogGroupCommand LOG_GROUP_NAME;
           CreateLogStreamCommand LOG_GROUP_NAME LOG_STREAM_NAME;
           describe; put 1001 pe None ]
    /\ get pe "processingTimeMillis" = integer 5000
    /\ get pe "recipient" = VStr "recipient@example.com".
Proof. cbv zeta. eexists. repeat split. Qed.

(** A store that refuses [CreateLogGroup] for another reason than the two
    tolerated ones: the handler throws and sends nothing more. *)
Example setup_failure_aborts :
  let run :=
    sesEventsHandler (env := env) (mkEvent [sns bounce_payload])
      (start [inl unavailable]) in
  fst run = inl unavailable
  /\ sent (snd run) = [CreateLogGroupCommand LOG_GROUP_NAME].
Proof. repeat split. Qed.

(** "Access denied" on the group and "already exists" on the stream: the
    handler goes on to the records. *)
Example setup_tolerates_refusals :
  let run :=
    sesEventsHandler (env := env) (mkEvent [foreign; sns bounce_payload])
      (start [inl access_denied; inl already_exists]) in
  exists pe,
    processSESEvent "T1000" bounce_payload = inr pe
    /\ fst run
       = inr (mkResult 200
                (JSON_stringify (VStr "Events processed successfully")))
    /\ sent (snd run)
       = [ CreateLogGroupCommand LOG_GROUP_NAME;
           CreateLogStreamCommand LOG_GROUP_NAME LOG_STREAM_NAME;
           describe; put 1001 pe None ].
Proof. cbv zeta. eexists. repeat split. Qed.

(** A payload that decodes to [null] has no property to read: the loop
    throws at its test of the discriminator (line 253) and the records after
    it are not reached. *)
Example null_payload_throws :
  let run :=
    process_records (env := env) [sns VNull; sns bounce_payload] (start []) in
  JSON_parse (Message (Sns (sns VNull))) = inr VNull
  /\ fst run
     = inl (mkError "TypeError"
              "Cannot read properties of null (reading 'eventType')")
  /\ sent (snd run) = [].
Proof. repeat split. Qed.

(** [RenderingFailure], in one word, enters no [case] group. *)
Example RenderingFailure_is_unrecognized :
  forall ts,
    processSESEvent ts (VObj [("eventType", VStr "RenderingFailure")])
    = inr (VObj (base_record ts
                   (VObj [("eventType", VStr "RenderingFailure")]))).
Proof. reflexivity. Qed.

End DispatcherExamples.

(* ===================================================================== *)
(** * Further properties of the normalizer *)
(* ===================================================================== *)

(** X1.  [processSESEvent] throws in one case only: a payload that is
    [null] or [undefined], on which the first property read raises a
    [TypeError].  On every other value it returns an object. *)
Theorem processSESEvent_throws_only_without_payload (ts : string) (m : Value) :
  match processSESEvent ts m with
  | inl error => nullish m = true /\ name error = "TypeError"
  | inr pe => nullish m = false /\ is_object pe = true
  end.
Proof. destruct m; simpl; split; reflexivity. Qed.

(** X2.  The properties of the record, in order: the seven base fields,
    then the extra fields of the [case] group that the discriminator
    selects.  A discriminator that is none of the twelve labels (another
    string, a non-string, none at all) gives the base record and nothing
    else. *)
Theorem record_schema (ts : string) (m : Value) :
  nullish m = false ->
  exists pe,
    processSESEvent ts m = inr (VObj pe)
    /\ (forall group fields,
          In (group, fields) detail_table ->
          get m "eventType" = VStr (fst group)
          \/ get m "eventType" = VStr (snd group) ->
          map fst pe = (base_fields ++ map (fun f => fst (fst f)) fields)%list)
    /\ (recognized (get m "eventType") = false ->
          pe = base_record ts m /\ map fst pe = base_fields).
Proof.
  intros N. exists (event_details m (base_record ts m)).
  split; [now apply processSESEvent_defined|]. split.
  - intros group fields Hin K. unfold event_details, base_record.
    simpl in Hin.
    repeat (destruct Hin as [Hin | Hin];
            [injection Hin as <- <-; cbn [fst snd] in K;
             destruct K as [-> | ->]; reflexivity|]).
    contradiction.
  - intros U. unfold event_details.
    destruct (get m "eventType") as [| | | |k| |]; try (split; reflexivity).
    cbn in U.
    repeat (apply orb_false_iff in U;
            let E := fresh "E" in destruct U as [E U]; rewrite E; clear E).
    split; reflexivity.
Qed.

(** A payload without discriminator has the hypothesis of X2 and gets the
    base record. *)
Lemma record_schema_witness :
  let m := VObj [("mail", VObj [])] in
  exists pe,
    processSESEvent "T" m = inr (VObj pe)
    /\ (forall group fields,
          In (group, fields) detail_table ->
          get m "eventType" = VStr (fst group)
          \/ get m "eventType" = VStr (snd group) ->
          map fst pe = (base_fields ++ map (fun f => fst (fst f)) fields)%list)
    /\ (recognized (get m "eventType") = false ->
          pe = base_record "T" m /\ map fst pe = base_fields).
Proof.
  intros m. apply (record_schema "T" m). reflexivity.
Defined.

(** X3.  What is present is copied as it is: [timestamp] is the clock
    reading, [rawEvent] the payload itself, and each of the five other base
    fields holds the value found at its source whenever that value is
    truthy, whatever its type. *)
Theorem present_values_are_copied (ts : string) (m : Value) :
  nullish m = false ->
  exists pe,
    processSESEvent ts m = inr (VObj pe)
    /\ lookup "timestamp" pe = Some (VStr ts)
    /\ lookup "rawEvent" pe = Some m
    /\ (forall k path, In (k, path) defaulted_fields ->
          truthy (get_at path m) = true ->
          lookup k pe = Some (get_at path m)).
Proof.
  intros N. exists (event_details m (base_record ts m)).
  split; [now apply processSESEvent_defined|].
  assert (base : forall k, In k base_fields -> ~ In k detail_fields).
  { simpl. intros k H D.
    repeat (destruct H as [<- | H];
            [repeat (destruct D as [D | D]; [discriminate|]); contradiction|]).
    contradiction. }
  split; [|split].
  - rewrite lookup_event_details by (apply base; simpl; tauto). reflexivity.
  - rewrite lookup_event_details by (apply base; simpl; tauto). reflexivity.
  - intros k path H T.
    assert (Hk : In k base_fields).
    { simpl in H |- *.
      repeat (destruct H as [H | H]; [injection H as <- _; tauto|]).
      contradiction. }
    rewrite lookup_event_details by now apply base.
    simpl in H.
    repeat (destruct H as [H | H];
            [injection H as <- <-; cbn [get_at] in T |- *;
             rewrite (opt_get_defined m) in T |- * by assumption;
             unfold base_record; cbn [lookup String.eqb Ascii.eqb Bool.eqb];
             now rewrite (or_else_truthy_left _ _ T)|]).
    contradiction.
Qed.

(** The hypothesis of X3 holds of the payload of [test-event.js]. *)
Lemma present_values_are_copied_witness :
  let m := TestEvent.test_payload in
  exists pe,
    processSESEvent "T" m = inr (VObj pe)
    /\ lookup "timestamp" pe = Some (VStr "T")
    /\ lookup "rawEvent" pe = Some m
    /\ (forall k path, In (k, path) defaulted_fields ->
          truthy (get_at path m) = true ->
          lookup k pe = Some (get_at path m)).
Proof.
  intros m. apply (present_values_are_copied "T" m). reflexivity.
Defined.

(** X4.  [recipient] is the first destination only: the first element of a
    list (["unknown"] when that element is falsy or the list is empty), the
    first character of a string, the property ["0"] of an object. *)
Theorem recipient_is_first_destination (ts : string) (m : Value) :
  nullish m = false ->
  exists pe,
    processSESEvent ts m = inr (VObj pe)
    /\ lookup "recipient" pe
       = Some match get_at ["mail"; "destination"] m with
              | VArr (first :: _) => first ||| unknown
              | VStr (String c _) => VStr (String c EmptyString)
              | VObj props => get (VObj props) "0" ||| unknown
              | _ => unknown
              end.
Proof.
  intros N. exists (event_details m (base_record ts m)).
  split; [now apply processSESEvent_defined|].
  rewrite lookup_event_details.
  2:{ simpl. intros D.
      repeat (destruct D as [D | D]; [discriminate|]). contradiction. }
  unfold base_record. cbn [lookup String.eqb Ascii.eqb Bool.eqb get_at].
  rewrite (opt_get_defined m) by assumption. f_equal.
  destruct (opt_get (get m "mail") "destination")
    as [| |b|n|s|[|first rest]|props]; try reflexivity.
  destruct s; reflexivity.
Qed.

(** The hypothesis of X4 holds of a payload with two destinations. *)
Lemma recipient_is_first_destination_witness :
  let m :=
    VObj [("mail", VObj [("destination", VArr [VStr "a@x"; VStr "b@x"])])] in
  exists pe,
    processSESEvent "T" m = inr (VObj pe)
    /\ lookup "recipient" pe
       = Some match get_at ["mail"; "destination"] m with
              | VArr (first :: _) => first ||| unknown
              | VStr (String c _) => VStr (String c EmptyString)
              | VObj props => get (VObj props) "0" ||| unknown
              | _ => unknown
              end.
Proof.
  intros m. apply (recipient_is_first_destination "T" m). reflexivity.
Defined.

(** X5.  Each extra field holds the value found at its place in the
    payload, or its default when that value is missing or falsy: the
    section is the one named after the kind, except that a rendering failure
    reads its details from [failure]. *)
Theorem detail_fields_follow_the_table
  (ts : string) (m : Value) (group : string * string)
  (fields : list (string * list string * Value)) :
  In (group, fields) detail_table ->
  get m "eventType" = VStr (fst group) \/ get m "eventType" = VStr (snd group) ->
  exists pe,
    processSESEvent ts m = inr (VObj pe)
    /\ forall field path default,
         In (field, path, default) fields ->
         lookup field pe = Some (get_at path m ||| default).
Proof.
  intros Hin K.
  assert (N : nullish m = false).
  { destruct m; try reflexivity; destruct K as [K | K]; discriminate. }
  exists (event_details m (base_record ts m)).
  split; [now apply processSESEvent_defined|].
  intros field path default F. unfold event_details.
  unfold bounce_details, complaint_details, delivery_details, reject_details,
    renderingFailure_details.
  simpl in Hin.
  repeat (destruct Hin as [Hin | Hin];
          [injection Hin as <- <-; cbn [fst snd] in K; simpl in F;
           repeat (destruct F as [F | F];
                   [injection F as <- <- <-;
                    destruct K as [-> | ->];
                    cbn [String.eqb Ascii.eqb Bool.eqb orb get_at];
                    rewrite ?lookup_assign_other by discriminate;
                    rewrite lookup_assign_same, section_or_empty;
                    now rewrite (opt_get_defined m) by assumption|]);
           contradiction|]).
  contradiction.
Qed.

(** The hypotheses of X5 hold of a rendering failure. *)
Lemma detail_fields_follow_the_table_witness :
  let m :=
    VObj [ ("eventType", VStr "Rendering Failure");
           ("failure", VObj [("templateName", VStr "welcome")]) ] in
  exists pe,
    processSESEvent "T" m = inr (VObj pe)
    /\ forall field path default,
         In (field, path, default)
            [ ("errorMessage", ["failure"; "errorMessage"], unknown);
              ("templateName", ["failure"; "templateName"], unknown) ] ->
         lookup field pe = Some (get_at path m ||| default).
Proof.
  intros m.
  apply (detail_fields_follow_the_table "T" m
           ("Rendering Failure", "renderingFailure")).
  - simpl. tauto.
  - left. reflexivity.
Defined.

(* ===================================================================== *)
(** * Further properties of the log client *)
(* ===================================================================== *)

Module LogClientMore.

Lemma no_space_non_space_run s : no_space (non_space_run s) = true.
Proof.
  induction s as [|c s IH]; simpl; [reflexivity|].
  destruct (is_space c) eqn:S; simpl; [reflexivity|]. now rewrite S.
Qed.

Lemma strip_prefix_app p rest : strip_prefix p (p ++ rest) = Some rest.
Proof.
  induction p as [|a p IH]; simpl; [now destruct rest|].
  now rewrite Ascii.eqb_refl.
Qed.

Lemma match_expected_token_shape s token :
  match_expected_token s = Some token ->
  exists pre post,
    s = pre ++ expected_token_text ++ token ++ post
    /\ token <> EmptyString
    /\ no_space token = true
    /\ at_word_end post.
Proof.
  induction s as [|c s IH].
  - cbn. discriminate.
  - cbn [match_expected_token]. destruct (match_here (String c s)) eqn:M.
    + intros [= ->]. unfold match_here in M.
      destruct (strip_prefix expected_token_text (String c s)) as [rest|] eqn:P;
        [|discriminate].
      apply strip_prefix_sound in P.
      destruct (non_space_run rest) eqn:R; [discriminate|].
      injection M as <-.
      destruct (non_space_run_split rest) as (post & E & H).
      exists EmptyString, post. rewrite P, E at 1. rewrite R.
      repeat split; [discriminate | | exact H].
      rewrite <- R. apply no_space_non_space_run.
    + intros H. destruct (IH H) as (pre & post & E & D & S & T).
      exists (String c pre), post. simpl. now rewrite E.
Qed.

Lemma match_here_found c rest :
  is_space c = false ->
  match_here (expected_token_text ++ String c rest)
  = Some (String c (non_space_run rest)).
Proof.
  intros S. unfold match_here. rewrite strip_prefix_app.
  cbn [non_space_run]. now rewrite S.
Qed.

Section WithEnvironment.
Context {env : Environment}.

Lemma token_param_first_cursor reply :
  token_param (first_cursor reply) = cursor_of reply.
Proof.
  destruct reply as [e|response]; [reflexivity|]. unfold first_cursor, cursor_of.
  destruct (logStreams response) as [[|first rest]|]; try reflexivity.
  unfold token_value. destruct (uploadSequenceToken first) as [[|c t]|];
    reflexivity.
Qed.

(** [writeToCloudWatch] up to the reply to its first submission. *)
Lemma writeToCloudWatch_first_attempt (message : Value) (w : World) t o1 :
  let reply := fst (store_send describe (outside w)) in
  let first := put t message (cursor_of reply) in
  Date_now (snd (store_send describe (outside w))) = (t, o1) ->
  exists lines,
    writeToCloudWatch message w
    = match store_send first o1 with
      | (inr _, o2) =>
          (inr true,
           mkWorld o2 (sent w ++ [describe; first])%list
             (console w ++ lines
                ++ [(LOG, ["Successfully wrote event to CloudWatch Logs"])])%list)
      | (inl error, o2) =>
          (if is_conflict error then retry_put message error else ret false)
            (mkWorld o2 (sent w ++ [describe; first])%list
               (console w ++ lines
                  ++ [(ERROR, [("Error writing to CloudWatch Logs: "
                                  ++ JS.message error)%string])])%list)
      end.
Proof.
  intros reply first N.
  destruct (getSequenceToken_run w) as (lines & G). exists lines.
  unfold writeToCloudWatch. run. rewrite G. cbn [outside sent console].
  rewrite N. cbn [outside sent console].
  rewrite token_param_first_cursor. fold reply. unfold put in first. fold first.
  unfold is_conflict.
  destruct (store_send first o1) as [[error|r] o2]; cbn [outside sent console];
    rewrite <- !app_assoc; reflexivity.
Qed.

End WithEnvironment.

End LogClientMore.

Import LogClientMore.

Section LogClientExtras.
Context {env : Environment}.

(** X6.  [writeToCloudWatch] never throws, whatever the store answers: it
    returns a boolean after having sent the cursor lookup and then one or
    two submissions, each of the serialized message in a single-entry
    batch. *)
Theorem writeToCloudWatch_never_throws (message : Value) (w : World) :
  exists written w' commands,
    writeToCloudWatch message w = (inr written, w')
    /\ sent w' = (sent w ++ commands)%list
    /\ one_append message commands.
Proof. apply writeToCloudWatch_total. Qed.

(** X7.  The first submission follows the lookup directly and carries the
    token of the first stream of the lookup's reply when that token is a
    non-empty string; it carries no cursor when the lookup failed, listed no
    stream, or listed a first stream without token or with an empty one.  At
    most one more command follows. *)
Theorem first_submission_cursor (message : Value) (w : World) :
  let reply := fst (store_send describe (outside w)) in
  let t := fst (Date_now (snd (store_send describe (outside w)))) in
  exists rest,
    sent (snd (writeToCloudWatch message w))
    = (sent w ++ describe :: put t message (cursor_of reply) :: rest)%list
    /\ (length rest <= 1)%nat.
Proof.
  intros reply t.
  destruct (Date_now (snd (store_send describe (outside w)))) as [t' o1] eqn:N.
  destruct (writeToCloudWatch_first_attempt message w t' o1 N) as (lines & ->).
  subst t. cbn [fst]. fold reply.
  destruct (store_send _ o1) as [[error|r] o2].
  - destruct (is_conflict error).
    + unfold retry_put. run. cbn [outside sent console].
      destruct (Date_now o2) as [t2 o3]. cbn [outside sent console].
      destruct (store_send _ o3) as [[e2|r2] o4]; cbn [snd sent];
        eexists (_ :: nil); rewrite <- app_assoc;
        (split; [reflexivity | simpl; lia]).
    + exists []. split; [reflexivity | simpl; lia].
  - exists []. split; [reflexivity | simpl; lia].
Qed.

(** X8.  When the store accepts the first submission, [writeToCloudWatch]
    returns [true] and has sent the lookup and that submission, nothing
    else. *)
Theorem first_attempt_success
  (message : Value) (w : World) (t : Z) (o1 o2 : Outside) (r : Response) :
  let reply := fst (store_send describe (outside w)) in
  Date_now (snd (store_send describe (outside w))) = (t, o1) ->
  store_send (put t message (cursor_of reply)) o1 = (inr r, o2) ->
  exists w',
    writeToCloudWatch message w = (inr true, w')
    /\ sent w' = (sent w ++ [describe; put t message (cursor_of reply)])%list
    /\ outside w' = o2.
Proof.
  intros reply N S.
  destruct (writeToCloudWatch_first_attempt message w t o1 N) as (lines & ->).
  fold reply. rewrite S. eexists. repeat split.
Qed.

(** X9.  When the first submission fails with anything but
    [InvalidSequenceTokenException], [writeToCloudWatch] returns [false]
    without a second submission; the error's message is the last console
    line, at error level. *)
Theorem other_failure_is_not_retried
  (message : Value) (w : World) (t : Z) (o1 o2 : Outside) (error : Error) :
  let reply := fst (store_send describe (outside w)) in
  Date_now (snd (store_send describe (outside w))) = (t, o1) ->
  store_send (put t message (cursor_of reply)) o1 = (inl error, o2) ->
  is_conflict error = false ->
  exists w' lines,
    writeToCloudWatch message w = (inr false, w')
    /\ sent w' = (sent w ++ [describe; put t message (cursor_of reply)])%list
    /\ outside w' = o2
    /\ console w'
       = (lines ++ [(ERROR, [("Error writing to CloudWatch Logs: "
                                ++ JS.message error)%string])])%list.
Proof.
  intros reply N S C.
  destruct (writeToCloudWatch_first_attempt message w t o1 N) as (lines & ->).
  fold reply. rewrite S, C. unfold ret.
  eexists. exists (console w ++ lines)%list.
  cbn [sent outside console]. rewrite <- app_assoc. repeat split.
Qed.

End LogClientExtras.

(** X10.  What the pattern captures: the message is some text, the fixed
    wording, the token, and a rest; the token is not empty, holds no
    white space, and is followed by white space or by the end of the
    message. *)
Theorem captured_token_shape (s token : string) :
  match_expected_token s = Some token ->
  exists pre post,
    s = pre ++ expected_token_text ++ token ++ post
    /\ token <> EmptyString
    /\ no_space token = true
    /\ at_word_end post.
Proof. apply match_expected_token_shape. Qed.

(** X11.  The pattern matches exactly the messages in which the fixed
    wording occurs somewhere with a character other than white space right
    after it. *)
Theorem token_found_iff_wording_present (s : string) :
  match_expected_token s <> None
  <-> exists pre c rest,
        s = pre ++ expected_token_text ++ String c rest /\ is_space c = false.
Proof.
  split.
  - destruct (match_expected_token s) as [token|] eqn:M; [|congruence].
    intros _. destruct (match_expected_token_shape s token M)
      as (pre & post & E & D & S & _).
    destruct token as [|c t]; [congruence|].
    exists pre, c, (t ++ post). split; [exact E|].
    simpl in S. apply andb_true_iff in S. destruct S as [S _].
    now destruct (is_space c).
  - intros (pre & c & rest & -> & S).
    induction pre as [|a pre IH].
    + cbn [append]. 
      assert (F := match_here_found c rest S).
      unfold expected_token_text in *. cbn [append] in F |- *.
      cbn [match_expected_token]. rewrite F. discriminate.
    + change (String a pre ++ expected_token_text ++ String c rest)
        with (String a (pre ++ expected_token_text ++ String c rest)).
      cbn [match_expected_token].
      destruct (match_here _); [discriminate | exact IH].
Qed.

Section LogClientExtrasExamples.
Import Examples.
#[local] Existing Instance Examples.env.

(** The hypotheses of X8 hold against a store that accepts everything. *)
Lemma first_attempt_success_witness :
  let w0 : @World env := start [] in
  exists w',
    writeToCloudWatch small_record w0 = (inr true, w')
    /\ sent w' = [describe; put 1000 small_record None]
    /\ outside w' = mkScript [] 1001.
Proof.
  intros w0.
  apply (first_attempt_success (env := env) small_record w0 1000
           (mkScript [] 1001) (mkScript [] 1001) no_output); reflexivity.
Defined.

(** The hypotheses of X9 hold against a store that is unavailable for the
    submission. *)
Lemma other_failure_is_not_retried_witness :
  let w0 : @World env := start [inr no_output; inl unavailable] in
  exists w' lines,
    writeToCloudWatch small_record w0 = (inr false, w')
    /\ sent w' = [describe; put 1000 small_record None]
    /\ outside w' = mkScript [] 1001
    /\ console w'
       = (lines ++ [(ERROR, [("Error writing to CloudWatch Logs: "
                                ++ JS.message unavailable)%string])])%list.
Proof.
  intros w0.
  apply (other_failure_is_not_retried (env := env) small_record w0 1000
           (mkScript [inl unavailable] 1001) (mkScript [] 1001) unavailable);
    reflexivity.
Defined.

(** The hypothesis of X10 holds of a conflict message as the store words
    it, with more text after the token. *)
Lemma captured_token_shape_witness :
  let s :=
    "The given sequenceToken is invalid. The next expected sequenceToken is: 4961 (retry)" in
  exists pre post,
    s = pre ++ expected_token_text ++ "4961" ++ post
    /\ "4961" <> EmptyString
    /\ no_space "4961" = true
    /\ at_word_end post.
Proof.
  intros s. apply (captured_token_shape s "4961"). reflexivity.
Defined.

End LogClientExtrasExamples.

(* ===================================================================== *)
(** * Further properties of the dispatcher *)
(* ===================================================================== *)

Module DispatcherMore.

Lemma assign_twice k v props : assign k v (assign k v props) = assign k v props.
Proof.
  induction props as [|[k' v'] rest IH]; simpl.
  - now rewrite String.eqb_refl.
  - destruct (k' =? k) eqn:E; simpl.
    + now rewrite String.eqb_refl.
    + now rewrite E, IH.
Qed.

Section WithEnvironment.
Context {env : Environment}.

Lemma fate_passed_over record :
  fate record = Ignored \/ fate record = Irrelevant -> passed_over record.
Proof.
  unfold fate, passed_over.
  destruct (String.eqb_spec (EventSource record) "aws:sns") as [S|S].
  - intros H. right.
    destruct (JSON_parse (Message (Sns record))) as [e|payload];
      [destruct H; discriminate|].
    destruct (nullish payload) eqn:N; [destruct H; discriminate|].
    destruct (truthy (get payload "eventType")) eqn:E;
      [destruct H; discriminate|].
    destruct (truthy (get payload "notificationType")) eqn:L;
      [destruct H; discriminate|].
    exists payload. repeat split; assumption.
  - now left.
Qed.

Lemma fate_undecodable record parseError :
  fate record = Undecodable parseError ->
  EventSource record = "aws:sns"
  /\ JSON_parse (Message (Sns record)) = inl parseError.
Proof.
  unfold fate.
  destruct (String.eqb_spec (EventSource record) "aws:sns") as [S|S];
    [|discriminate].
  destruct (JSON_parse (Message (Sns record))) as [e|payload].
  - intros [= ->]. now split.
  - destruct (nullish payload); [discriminate|].
    destruct (truthy _ || truthy _); discriminate.
Qed.

Lemma fate_logged record payload :
  fate record = Logged payload -> relevant record payload.
Proof.
  unfold fate, relevant.
  destruct (String.eqb_spec (EventSource record) "aws:sns") as [S|S];
    [|discriminate].
  destruct (JSON_parse (Message (Sns record))) as [e|p]; [discriminate|].
  destruct (nullish p); [discriminate|].
  destruct (truthy (get p "eventType") || truthy (get p "notificationType"))
    eqn:T; [|discriminate].
  intros [= ->]. apply orb_true_iff in T. repeat split; assumption.
Qed.

Lemma fate_poison record :
  fate record = Poison ->
  EventSource record = "aws:sns"
  /\ exists payload,
       JSON_parse (Message (Sns record)) = inr payload
       /\ nullish payload = true.
Proof.
  unfold fate.
  destruct (String.eqb_spec (EventSource record) "aws:sns") as [S|S];
    [|discriminate].
  destruct (JSON_parse (Message (Sns record))) as [e|p]; [discriminate|].
  destruct (nullish p) eqn:N.
  - intros _. split; [exact S|]. now exists p.
  - destruct (truthy _ || truthy _); discriminate.
Qed.

(** A record that gets logged and whose kind and recipient convert to
    strings: one append, and the loop goes on. *)
Lemma process_record_logged record payload w :
  relevant record payload ->
  reportable payload = true ->
  exists w' commands,
    process_record record w = (inr tt, w')
    /\ sent w' = (sent w ++ commands)%list
    /\ append_of payload commands.
Proof.
  intros Rel Rep.
  destruct (process_record_relevant record payload w Rel) as (O & l & ->).
  destruct (log_ses_event_run payload (add_lines l w) O)
    as (pe & commands & written & w2 & E & _ & S & One & ->).
  destruct (outcome_reportable payload pe _ written E Rep) as (line & ->).
  eexists _, commands. split; [reflexivity|]. split; [exact S|].
  eexists _, pe. split; [exact E | exact One].
Qed.

(** A record whose payload is [null]: the loop throws a [TypeError]. *)
Lemma process_record_poison record w :
  fate record = Poison ->
  exists error lines,
    process_record record w = (inl error, add_lines lines w)
    /\ name error = "TypeError".
Proof.
  intros F. destruct (fate_poison record F) as (S & payload & P & N).
  unfold process_record, add_lines. rewrite S, P. run.
  cbn [String.eqb Ascii.eqb Bool.eqb outside sent console].
  destruct payload; try discriminate; cbn [read];
    rewrite <- !app_assoc; do 2 eexists; split; reflexivity.
Qed.

(** The loop over records none of which is poisonous, and whose logged
    payloads have a printable kind and recipient. *)
Lemma process_records_clean records :
  forall w,
    existsb poisonous records = false ->
    forallb reportable (logged_payloads records) = true ->
    exists w' commands,
      process_records records w = (inr tt, w')
      /\ sent w' = (sent w ++ commands)%list
      /\ appends_of (logged_payloads records) commands.
Proof.
  induction records as [|record rest IH]; intros w C P.
  - exists w, []. cbn. rewrite app_nil_r. split; [reflexivity|].
    split; [reflexivity|]. exists []. split; [reflexivity | constructor].
  - cbn [existsb] in C. apply orb_false_iff in C. destruct C as [C1 C2].
    cbn [process_records logged_payloads] in P |- *. unfold bind.
    unfold poisonous in C1.
    destruct (fate record) as [|parseError| |payload|] eqn:F; try discriminate.
    + destruct (process_record_passed_over record w
                  (fate_passed_over record (or_introl F))) as (l & ->).
      destruct (IH (add_lines l w) C2 P) as (w' & commands & E & S & A).
      exists w', commands. split; [exact E|]. split; assumption.
    + destruct (fate_undecodable record parseError F) as (S0 & D).
      rewrite (process_record_undecodable record parseError w S0 D).
      destruct (IH (add_lines (decode_failure_lines record parseError) w) C2 P)
        as (w' & commands & E & S & A).
      exists w', commands. split; [exact E|]. split; assumption.
    + destruct (process_record_passed_over record w
                  (fate_passed_over record (or_intror F))) as (l & ->).
      destruct (IH (add_lines l w) C2 P) as (w' & commands & E & S & A).
      exists w', commands. split; [exact E|]. split; assumption.
    + cbn [forallb] in P. apply andb_true_iff in P. destruct P as [P1 P2].
      destruct (process_record_logged record payload w (fate_logged _ _ F) P1)
        as (w1 & c1 & -> & S1 & A1).
      destruct (IH w1 C2 P2) as (w' & commands & E & S & (groups & G & A)).
      exists w', (c1 ++ commands)%list. split; [exact E|]. split.
      * rewrite S, S1. now rewrite app_assoc.
      * exists (c1 :: groups). split; [now rewrite G | now constructor].
Qed.

(** What the setup throws, the handler throws. *)
Lemma sesEventsHandler_setup_failure (event : LambdaEvent) (w w1 : World) error :
  ensureLogGroupExists (received event w) = (inl error, w1) ->
  sesEventsHandler event w = (inl error, w1).
Proof.
  intros Setup. unfold sesEventsHandler, bind at 1 2, console_log at 1.
  fold (add_lines [(LOG, ["Received event:"; JSON_stringify_event event])] w).
  fold (received event w). now rewrite Setup.
Qed.

(** The handler on such a batch, once the setup has completed. *)
Lemma clean_batch_completes_loop (event : LambdaEvent) (w w1 : World) :
  existsb poisonous (Records event) = false ->
  forallb reportable (logged_payloads (Records event)) = true ->
  ensureLogGroupExists (received event w) = (inr tt, w1) ->
  exists w' commands,
    sesEventsHandler event w
    = (inr (mkResult 200
              (JSON_stringify (VStr "Events processed successfully"))), w')
    /\ sent w' = (sent w1 ++ commands)%list
    /\ appends_of (logged_payloads (Records event)) commands.
Proof.
  intros C P Setup.
  unfold sesEventsHandler. unfold bind at 1 2, console_log at 1.
  fold (add_lines [(LOG, ["Received event:"; JSON_stringify_event event])] w).
  fold (received event w). rewrite Setup. unfold bind, try_catch.
  destruct (process_records_clean (Records event) w1 C P)
    as (w' & commands & E & S & A).
  rewrite E. unfold ret. exists w', commands.
  split; [reflexivity|]. split; assumption.
Qed.

End WithEnvironment.

End DispatcherMore.

Import DispatcherMore.

Section DispatcherExtras.
Context {env : Environment}.

(** X12.  A record that gets logged, and whose kind and recipient convert
    to strings, never stops the loop, whatever the store answers to its
    append (failure included): its one append is sent, [process_record]
    returns, and the records after it are processed. *)
Theorem append_failure_does_not_abort
  (record : SNSRecord) (payload : Value) (rest : list SNSRecord) (w : World) :
  relevant record payload ->
  reportable payload = true ->
  exists w' commands,
    process_record record w = (inr tt, w')
    /\ sent w' = (sent w ++ commands)%list
    /\ append_of payload commands
    /\ process_records (record :: rest) w = process_records rest w'.
Proof.
  intros Rel Rep.
  destruct (process_record_logged record payload w Rel Rep)
    as (w' & commands & E & S & A).
  exists w', commands. split; [exact E|]. split; [exact S|].
  split; [exact A|].
  cbn [process_records]. unfold bind. now rewrite E.
Qed.

(** X13.  In an invocation whose setup completes, on a batch in which no
    payload decodes to [null] and every logged payload has a kind and a
    recipient that convert to strings, the handler returns status 200
    whatever happened to the appends, and what it sent after the setup is,
    in batch order, one append for each record that is from SNS, decodes,
    and has a truthy discriminator; an empty batch sends nothing. *)
Theorem clean_batch_completes (event : LambdaEvent) (w w1 : World) :
  existsb poisonous (Records event) = false ->
  forallb reportable (logged_payloads (Records event)) = true ->
  ensureLogGroupExists (received event w) = (inr tt, w1) ->
  exists w' commands,
    sesEventsHandler event w
    = (inr (mkResult 200
              (JSON_stringify (VStr "Events processed successfully"))), w')
    /\ sent w' = (sent w1 ++ commands)%list
    /\ appends_of (logged_payloads (Records event)) commands
    /\ (Records event = [] -> commands = []).
Proof.
  intros C P Setup.
  destruct (clean_batch_completes_loop event w w1 C P Setup)
    as (w' & commands & E & S & A).
  exists w', commands. split; [exact E|]. split; [exact S|].
  split; [exact A|].
  intros Empty. rewrite Empty in A. destruct A as (groups & -> & F).
  inversion F. reflexivity.
Qed.

(** X14.  A record from SNS whose payload decodes to [null] makes the
    handler throw a [TypeError]: the records before it (none of them
    decoding to [null], the logged ones with a kind and a recipient that
    convert to strings) have had their appends, the records after it get
    nothing, and the error is logged before it is thrown again. *)
Theorem null_payload_aborts
  (event : LambdaEvent) (before after : list SNSRecord) (record : SNSRecord)
  (w w1 : World) :
  Records event = (before ++ record :: after)%list ->
  existsb poisonous before = false ->
  forallb reportable (logged_payloads before) = true ->
  poisonous record = true ->
  ensureLogGroupExists (received event w) = (inr tt, w1) ->
  exists error w' commands lines,
    sesEventsHandler event w = (inl error, w')
    /\ name error = "TypeError"
    /\ sent w' = (sent w1 ++ commands)%list
    /\ appends_of (logged_payloads before) commands
    /\ console w'
       = (lines ++ [(ERROR, [("Error processing event: "
                                ++ JS.message error)%string])])%list.
Proof.
  intros R C Rep P Setup.
  unfold sesEventsHandler. rewrite R. unfold bind at 1 2, console_log at 1.
  fold (add_lines [(LOG, ["Received event:"; JSON_stringify_event event])] w).
  fold (received event w). rewrite Setup. unfold bind, try_catch.
  rewrite process_records_app.
  destruct (process_records_clean before w1 C Rep)
    as (w2 & commands & -> & S & A).
  cbn [process_records]. unfold bind.
  unfold poisonous in P. destruct (fate record) eqn:F; try discriminate.
  destruct (process_record_poison record w2 F) as (error & lines & -> & T).
  unfold console_error, throw. cbn [outside sent console add_lines].
  exists error. eexists. exists commands, (console w2 ++ lines)%list.
  split; [reflexivity|]. cbn [sent console].
  split; [exact T|]. split; [exact S|]. split; [exact A | reflexivity].
Qed.

(** X15.  A payload without a truthy [notificationType] reaches the
    normalizer as decoded: the record appended is the one built from the
    payload itself, its [rawEvent] is the payload, and its [eventType] is the
    payload's. *)
Theorem payload_without_legacy_kind_is_kept
  (record : SNSRecord) (payload : Value) (w : World) :
  relevant record payload ->
  truthy (get payload "notificationType") = false ->
  exists result w' ts pe commands,
    process_record record w = (result, w')
    /\ processSESEvent ts payload = inr pe
    /\ get pe "rawEvent" = payload
    /\ get pe "eventType" = get payload "eventType"
    /\ sent w' = (sent w ++ commands)%list
    /\ one_append pe commands.
Proof.
  intros Rel L.
  destruct (process_record_relevant record payload w Rel) as (O & l & ->).
  destruct (log_ses_event_run payload (add_lines l w) O)
    as (pe & commands & written & w2 & E & _ & Sent & One & ->).
  unfold with_legacy_kind in E. rewrite L in E.
  eexists _, _, (toISOString (fst (Date_now (outside (add_lines l w))))),
    pe, commands.
  split; [reflexivity|]. split; [exact E|].
  assert (N : nullish payload = false) by (destruct payload; easy).
  rewrite processSESEvent_defined in E by exact N. injection E as <-.
  assert (B : forall k, In k base_fields -> ~ In k detail_fields).
  { simpl. intros k H D.
    repeat (destruct H as [<- | H];
            [repeat (destruct D as [D | D]; [discriminate|]); contradiction|]).
    contradiction. }
  destruct Rel as (_ & _ & [T | T]); [|congruence].
  refine (conj _ (conj _ (conj Sent One)));
    rewrite !get_object, !lookup_event_details by (apply B; simpl; tauto);
    unfold base_record; cbn [lookup String.eqb Ascii.eqb Bool.eqb].
  - reflexivity.
  - now apply or_else_truthy_left.
Qed.

(** X16.  The dispatcher's normalization of the discriminator is
    idempotent: a payload that has been through it (a stored [rawEvent],
    say) comes out of it unchanged. *)
Theorem legacy_normalization_is_idempotent (payload : Value) :
  with_legacy_kind (with_legacy_kind payload) = with_legacy_kind payload.
Proof.
  unfold with_legacy_kind.
  destruct (truthy (get payload "notificationType")) eqn:T; [|now rewrite T].
  destruct payload as [| |b|n|s|items|props]; try discriminate.
  cbn [write]. rewrite get_assign_other by discriminate. rewrite T.
  cbn [write]. now rewrite assign_twice.
Qed.

(** X17.  [runTest], when the test message decodes back to the test
    payload: it exits with status 1 exactly when the setup throws.  When the
    setup completes it returns normally, having sent one append of the test
    payload, whether or not the store accepted it. *)
Theorem runTest_exit_status
  (inspect_result : HandlerResult -> string) (inspect_error : Error -> string)
  (w : World) :
  JSON_parse (JSON_stringify TestEvent.test_payload)
  = inr TestEvent.test_payload ->
  let run := TestEvent.runTest inspect_result inspect_error w in
  let w0 :=
    received TestEvent.testEvent
      (add_lines [(LOG, ["Running test event..."])] w) in
  match ensureLogGroupExists w0 with
  | (inl _, w1) => fst run = Some 1%Z /\ sent (snd run) = sent w1
  | (inr _, w1) =>
      fst run = None
      /\ exists commands,
           sent (snd run) = (sent w1 ++ commands)%list
           /\ append_of TestEvent.test_payload commands
  end.
Proof.
  intros RT run w0. subst run. unfold TestEvent.runTest.
  set (w_ := add_lines [(LOG, ["Running test event..."])] w) in *.
  change ((console_log ["Running test event..."] ;;
           sesEventsHandler TestEvent.testEvent) w)
    with (sesEventsHandler TestEvent.testEvent w_).
  destruct (ensureLogGroupExists w0) as [[error|[]] w1] eqn:Setup.
  - rewrite (sesEventsHandler_setup_failure _ _ _ _ Setup).
    split; reflexivity.
  - assert (F : fate (mkRecord "aws:sns"
                        (mkSns (JSON_stringify TestEvent.test_payload)))
                = Logged TestEvent.test_payload).
    { unfold fate. cbn [EventSource Sns Message String.eqb Ascii.eqb Bool.eqb].
      rewrite RT. reflexivity. }
    assert (C : existsb poisonous (Records TestEvent.testEvent) = false).
    { cbn [TestEvent.testEvent Records existsb]. unfold poisonous.
      now rewrite F. }
    assert (P : forallb reportable (logged_payloads (Records TestEvent.testEvent))
                = true).
    { cbn [TestEvent.testEvent Records logged_payloads]. rewrite F.
      reflexivity. }
    destruct (clean_batch_completes_loop TestEvent.testEvent w_ w1 C P Setup)
      as (w' & commands & -> & S & A).
    cbn [fst snd sent]. split; [reflexivity|].
    exists commands. split; [exact S|].
    cbn [TestEvent.testEvent Records logged_payloads] in A. rewrite F in A.
    destruct A as (groups & -> & FA).
    inversion FA as [|p g ps gs H1 H2]; subst. inversion H2; subst.
    cbn [concat]. now rewrite app_nil_r.
Qed.

(** X19.  How an append went is told on the console and nowhere else.
    When [writeToCloudWatch] returned [false], the last line of a logged
    record is the error ["Failed to write event to CloudWatch"] and
    [process_record] returns normally.  When it returned [true], the kind
    and the recipient are converted to strings for the line ["Processed
    <kind> event for <recipient>"]; if a conversion throws, [process_record]
    throws that error and adds no line. *)
Theorem append_outcome_is_logged
  (record : SNSRecord) (payload : Value) (w : World) :
  relevant record payload ->
  exists w' ts pe w1 w2 written,
    processSESEvent ts (with_legacy_kind payload) = inr pe
    /\ writeToCloudWatch pe w1 = (inr written, w2)
    /\ process_record record w = (fst (outcome payload pe written), w')
    /\ sent w' = sent w2
    /\ outside w' = outside w2
    /\ console w' = (console w2 ++ snd (outcome payload pe written))%list.
Proof.
  intros Rel.
  destruct (process_record_relevant record payload w Rel) as (O & l & ->).
  destruct (log_ses_event_run payload (add_lines l w) O)
    as (pe & commands & written & w2 & E & W & _ & _ & ->).
  eexists _, _, pe, _, w2, written.
  split; [exact E|]. split; [exact W|]. split; [reflexivity|].
  repeat split.
Qed.

(** X20.  A logged record whose kind or recipient cannot be converted to a
    string (an object with a property [toString], say) stops the loop once
    the store has accepted its submission: the append has gone out, the
    conversion's error is thrown, and the records after it get nothing. *)
Theorem unconvertible_record_aborts
  (record : SNSRecord) (payload pe : Value) (rest : list SNSRecord)
  (w : World) (t0 t : Z) (oA o1 o2 : Outside) (r : Response) :
  relevant record payload ->
  reportable payload = false ->
  Date_now (outside w) = (t0, oA) ->
  processSESEvent (toISOString t0) (with_legacy_kind payload) = inr pe ->
  Date_now (snd (store_send describe oA)) = (t, o1) ->
  store_send (put t pe (cursor_of (fst (store_send describe oA)))) o1
  = (inr r, o2) ->
  exists error w',
    process_records (record :: rest) w = (inl error, w')
    /\ (ToString (get (with_legacy_kind payload) "eventType") = inl error
        \/ ToString (get pe "recipient") = inl error)
    /\ sent w'
       = (sent w ++ [describe;
                     put t pe (cursor_of (fst (store_send describe oA)))])%list
    /\ outside w' = o2.
Proof.
  intros Rel Rep D0 E N S.
  destruct (process_record_relevant record payload w Rel) as (O & l & Run).
  destruct (log_ses_event_run payload (add_lines l w) O)
    as (pe' & commands & written & w2 & E' & W & _ & _ & Log).
  cbn [add_lines outside sent console] in E', W. rewrite D0 in E', W.
  cbn [fst snd] in E', W. rewrite E in E'. injection E' as <-.
  destruct (writeToCloudWatch_first_attempt pe
              (mkWorld oA (sent w) (console w ++ l)) t o1 N) as (lines & F).
  cbn [outside sent console] in F. rewrite S in F. rewrite F in W.
  injection W as <- <-.
  cbn [process_records]. unfold bind. rewrite Run, Log.
  unfold outcome. unfold reportable, printable in Rep.
  rewrite <- (recipient_of_record _ _ _ E) in Rep.
  destruct (ToString (get (with_legacy_kind payload) "eventType"))
    as [error|kind] eqn:K.
  - exists error. eexists. split; [reflexivity|]. split; [now left|].
    split; reflexivity.
  - destruct (ToString (get pe "recipient")) as [error|recipient] eqn:Q;
      [|discriminate].
    exists error. eexists. split; [reflexivity|]. split; [now right|].
    split; reflexivity.
Qed.

End DispatcherExtras.

Section DispatcherExtrasExamples.
Import Examples.
#[local] Existing Instance Examples.env.

(** C6 at a batch whose first message is the text [null].  The message
    decodes, to a payload without discriminator; the handler does not pass
    it over: it throws at its test of the discriminator, and the bounce
    after it gets no append (nothing is sent after the setup). *)
Lemma null_payload_before_bounce :
  let event := mkEvent [sns VNull; sns bounce_payload] in
  let w0 : @World env := start [] in
  let run := sesEventsHandler event w0 in
  JSON_parse (Message (Sns (sns VNull))) = inr VNull
  /\ fst run
     = inl (mkError "TypeError"
              "Cannot read properties of null (reading 'eventType')")
  /\ sent (snd run)
     = [ CreateLogGroupCommand LOG_GROUP_NAME;
         CreateLogStreamCommand LOG_GROUP_NAME LOG_STREAM_NAME ].
Proof. repeat split. Qed.

(** The hypotheses of X12 hold of a bounce whose submission the store
    refuses; the delivery after it is processed. *)
Lemma append_failure_does_not_abort_witness :
  let w0 : @World env := start [inr no_output; inl unavailable] in
  exists w' commands,
    process_record (sns bounce_payload) w0 = (inr tt, w')
    /\ sent w' = (sent w0 ++ commands)%list
    /\ append_of bounce_payload commands
    /\ process_records (sns bounce_payload :: [sns delivery_payload]) w0
       = process_records [sns delivery_payload] w'.
Proof.
  intros w0.
  apply (append_failure_does_not_abort (env := env) (sns bounce_payload)
           bounce_payload [sns delivery_payload] w0).
  - repeat split; try reflexivity. left. reflexivity.
  - reflexivity.
Defined.

(** The hypotheses of X13 hold of a batch with one record of each harmless
    sort and two that get logged. *)
Lemma clean_batch_completes_witness :
  let event :=
    mkEvent [ foreign; garbled; sns subscription_payload;
              sns bounce_payload; sns legacy_bounce_payload ] in
  let w0 : @World env := start [] in
  exists w' commands,
    sesEventsHandler event w0
    = (inr (mkResult 200
              (JSON_stringify (VStr "Events processed successfully"))), w')
    /\ sent w'
       = ([ CreateLogGroupCommand LOG_GROUP_NAME;
            CreateLogStreamCommand LOG_GROUP_NAME LOG_STREAM_NAME ]
            ++ commands)%list
    /\ appends_of [bounce_payload; legacy_bounce_payload] commands
    /\ (Records event = [] -> commands = []).
Proof.
  intros event w0.
  apply (clean_batch_completes (env := env) event w0
           (snd (ensureLogGroupExists (env := env) (received event w0))));
    reflexivity.
Defined.

(** The hypotheses of X14 hold of a batch whose second message is the text
    [null]. *)
Lemma null_payload_aborts_witness :
  let event :=
    mkEvent [sns bounce_payload; sns VNull; sns delivery_payload] in
  let w0 : @World env := start [] in
  exists error w' commands lines,
    sesEventsHandler event w0 = (inl error, w')
    /\ name error = "TypeError"
    /\ sent w'
       = ([ CreateLogGroupCommand LOG_GROUP_NAME;
            CreateLogStreamCommand LOG_GROUP_NAME LOG_STREAM_NAME ]
            ++ commands)%list
    /\ appends_of [bounce_payload] commands
    /\ console w'
       = (lines ++ [(ERROR, [("Error processing event: "
                                ++ JS.message error)%string])])%list.
Proof.
  intros event w0.
  apply (null_payload_aborts (env := env) event [sns bounce_payload]
           [sns delivery_payload] (sns VNull) w0
           (snd (ensureLogGroupExists (env := env) (received event w0))));
    reflexivity.
Defined.

(** The hypotheses of X15 hold of the example bounce. *)
Lemma payload_without_legacy_kind_is_kept_witness :
  let w0 : @World env := start [] in
  exists result w' ts pe commands,
    process_record (sns bounce_payload) w0 = (result, w')
    /\ processSESEvent ts bounce_payload = inr pe
    /\ get pe "rawEvent" = bounce_payload
    /\ get pe "eventType" = get bounce_payload "eventType"
    /\ sent w' = (sent w0 ++ commands)%list
    /\ one_append pe commands.
Proof.
  intros w0.
  apply (payload_without_legacy_kind_is_kept (env := env)
           (sns bounce_payload) bounce_payload w0).
  - repeat split; try reflexivity. left. reflexivity.
  - reflexivity.
Defined.

(** The hypothesis of X19 holds of a bounce whose submission the store
    refuses. *)
Lemma append_outcome_is_logged_witness :
  let w0 : @World env := start [inr no_output; inl unavailable] in
  exists w' ts pe w1 w2 written,
    processSESEvent ts (with_legacy_kind bounce_payload) = inr pe
    /\ writeToCloudWatch pe w1 = (inr written, w2)
    /\ process_record (sns bounce_payload) w0
       = (fst (outcome bounce_payload pe written), w')
    /\ sent w' = sent w2
    /\ outside w' = outside w2
    /\ console w' = (console w2 ++ snd (outcome bounce_payload pe written))%list.
Proof.
  intros w0.
  apply (append_outcome_is_logged (env := env) (sns bounce_payload)
           bounce_payload w0).
  repeat split; try reflexivity. left. reflexivity.
Defined.

(** The hypotheses of X20 hold of a bounce whose first destination is an
    object with a property [toString], against a store that accepts
    everything; the delivery after it gets nothing. *)
Lemma unconvertible_record_aborts_witness :
  let w0 : @World env := start [] in
  exists pe error w',
    processSESEvent "T1000" unconvertible_payload = inr pe
    /\ process_records
         (sns unconvertible_payload :: [sns delivery_payload]) w0
       = (inl error, w')
    /\ (ToString (get (with_legacy_kind unconvertible_payload) "eventType")
        = inl error
        \/ ToString (get pe "recipient") = inl error)
    /\ sent w' = (sent w0 ++ [describe; put 1001 pe None])%list
    /\ outside w' = mkScript [] 1002.
Proof.
  intros w0.
  set (pe := VObj (event_details unconvertible_payload
                     (base_record "T1000" unconvertible_payload))).
  destruct (unconvertible_record_aborts (env := env)
              (sns unconvertible_payload) unconvertible_payload pe
              [sns delivery_payload] w0 1000 1001
              (mkScript [] 1001) (mkScript [] 1002) (mkScript [] 1002)
              no_output)
    as (error & w' & H); try reflexivity.
  - repeat split; try reflexivity. left. reflexivity.
  - exists pe, error, w'. split; [reflexivity | exact H].
Defined.

End DispatcherExtrasExamples.

Section TestEventExample.
#[local] Existing Instance TestEvent.example_env.

(** The hypothesis of X17 holds in the example environment of the script;
    the store refuses the submission and the script still returns
    normally. *)
Lemma runTest_exit_status_witness :
  let inspect_result := fun _ : HandlerResult => "{ statusCode: 200 }" in
  let inspect_error := fun e : Error => message e in
  let w : @World TestEvent.example_env :=
    Examples.start [ inr no_output; inr no_output; inr no_output;
                     inl Examples.unavailable ] in
  let run := TestEvent.runTest inspect_result inspect_error w in
  let w0 :=
    received TestEvent.testEvent
      (add_lines [(LOG, ["Running test event..."])] w) in
  match ensureLogGroupExists w0 with
  | (inl _, w1) => fst run = Some 1%Z /\ sent (snd run) = sent w1
  | (inr _, w1) =>
      fst run = None
      /\ exists commands,
           sent (snd run) = (sent w1 ++ commands)%list
           /\ append_of TestEvent.test_payload commands
  end.
Proof.
  intros inspect_result inspect_error w.
  apply (runTest_exit_status (env := TestEvent.example_env)
           inspect_result inspect_error w).
  reflexivity.
Defined.

End TestEventExample.

(* ===================================================================== *)
(** * What the record depends on *)
(* ===================================================================== *)

(** X18.  The record depends on seven properties of the payload only
    ([mail], [eventType] and the five detail sections): two payloads that
    agree on them get the same record, [rawEvent] apart.  Whatever else a
    payload holds shows in [rawEvent] and nowhere else. *)
Theorem unread_properties_only_show_in_rawEvent (ts : string) (m1 m2 : Value) :
  nullish m1 = false ->
  nullish m2 = false ->
  (forall k, In k read_properties -> get m1 k = get m2 k) ->
  exists p1 p2,
    processSESEvent ts m1 = inr (VObj p1)
    /\ processSESEvent ts m2 = inr (VObj p2)
    /\ remove "rawEvent" p1 = remove "rawEvent" p2
    /\ lookup "rawEvent" p1 = Some m1
    /\ lookup "rawEvent" p2 = Some m2.
Proof.
  intros N1 N2 H.
  assert (R : ~ In "rawEvent" detail_fields).
  { simpl. intros D.
    repeat (destruct D as [D | D]; [discriminate|]). contradiction. }
  exists (event_details m1 (base_record ts m1)),
         (event_details m2 (base_record ts m2)).
  rewrite !processSESEvent_defined by assumption.
  rewrite !lookup_event_details by exact R.
  repeat split.
  apply normalize_congruence;
    rewrite ?(H "mail"), ?(H "eventType") by (simpl; tauto); try reflexivity.
  intros pe. apply event_details_reads; apply H; simpl; tauto.
Qed.

(** The hypotheses of X18 hold of the payload of [test-event.js] and the
    same payload with one more property. *)
Lemma unread_properties_only_show_in_rawEvent_witness :
  let m1 := TestEvent.test_payload in
  let m2 := write TestEvent.test_payload "tags" (VObj []) in
  exists p1 p2,
    processSESEvent "T" m1 = inr (VObj p1)
    /\ processSESEvent "T" m2 = inr (VObj p2)
    /\ remove "rawEvent" p1 = remove "rawEvent" p2
    /\ lookup "rawEvent" p1 = Some m1
    /\ lookup "rawEvent" p2 = Some m2.
Proof.
  intros m1 m2.
  apply (unread_properties_only_show_in_rawEvent "T" m1 m2);
    try reflexivity.
  intros k H. simpl in H.
  repeat (destruct H as [<- | H]; [reflexivity|]). contradiction.
Defined.

